(** * Vehicle parts: roles, hit points, ammo and fuel bookkeeping, crew seats

    A shallow embedding of [src/vehicle_part.cpp]: the methods of
    [vehicle_part] and the helpers [vehicle::set_hp] and
    [vehicle::assign_seat].

    Conventions.
    - [int] and [long] values are integers of [Z].  A conversion from [long]
      to [int] is written [to_int] and wraps to 32 bits; integer division is
      the truncating [Z.quot] of C++.
    - [double] and [float] values are rationals of [Q].  An operation on
      them gives the exact result, rounded: the roundings [round_double] and
      [round_float] are parameters, of which a theorem assumes what it needs.
      A conversion of an [int] to [double] is exact, the conversion of a
      [double] to [int] ([double_to_int]) drops the fraction.  The cast of
      a [float] to [int] after [std::ceil] ([ceil_to_int]) gives the least
      [int] for a value that [int] does not hold.
    - [itype_id] and the flags are strings.
    - What the file takes from other translation units (the item type
      catalogue, the part catalogue, the NPC registry, the gun and magazine
      code of [item]) is gathered in the record [world]. *)

From Stdlib Require Import ZArith QArith Qround Qabs Qfield.
From Stdlib Require Import List String Bool Lia Lqa.
From Stdlib Require Import DecimalString.
Import ListNotations.

Local Open Scope string_scope.
Local Open Scope list_scope.
Local Open Scope Z_scope.

(** ** Numbers *)

Definition int_min : Z := - 2 ^ 31.
Definition int_max : Z := 2 ^ 31 - 1.

(** Narrowing of a [long] to an [int]. *)
Definition to_int (z : Z) : Z := (z + 2 ^ 31) mod 2 ^ 32 - 2 ^ 31.

Definition in_int_range (z : Z) : Prop := int_min <= z <= int_max.

(** Implicit conversion of a [double] to an [int]: the fraction is dropped. *)
Definition double_to_int (x : Q) : Z := Z.quot (Qnum x) (Zpos (Qden x)).

(** [std::ceil] followed by [static_cast<int>].  A value that [int] does not
    hold is converted to the least [int], which is what the conversion
    instruction gives. *)
Definition ceil_to_int (x : Q) : Z :=
  let c := Qceiling x in
  if (int_min <=? c) && (c <=? int_max) then c else int_min.

(** ** Data *)

Definition itype_id := string.
Definition vpart_id := string.


Definition fuel_type_none : itype_id := "null".
Definition fuel_type_battery : itype_id := "battery".
Definition fuel_type_muscle : itype_id := "muscle".

Inductive phase_id := PNULL | SOLID | LIQUID | GAS | PLASMA.

Definition phase_eqb (a b : phase_id) : bool :=
  match a, b with
  | PNULL, PNULL | SOLID, SOLID | LIQUID, LIQUID | GAS, GAS | PLASMA, PLASMA => true
  | _, _ => false
  end.

(** The container slot of an item type. *)
Record islot_container := {
  contains : Z;            (* capacity, in millilitres *)
  seals : bool;
  watertight : bool
}.

(** The fields of [itype] that the file reads, directly ([phase], [volume],
    [stack_size]) or through a query of [item]. *)
Record itype := {
  phase : phase_id;
  volume : Z;                          (* millilitres *)
  stack_size : Z;
  damage_max : Z;
  gun : bool;
  magazine : option string;            (* ammo type of a magazine *)
  container : option islot_container;
  fuel : option Q                      (* energy of one charge of a fuel *)
}.

Local Unset Elimination Schemes.
Inductive item : Type := mk_item {
  typeId : itype_id;
  charges : Z;
  item_damage : Q;
  contents : list item
}.
Local Set Elimination Schemes.

Record vpart_info := {
  durability : Z;
  flags : list string;
  fuel_type : itype_id
}.

Record npc := {
  getID : Z;
  is_dead_state : bool;
  is_friend : bool
}.

Record tripoint := { tx : Z; ty : Z; tz : Z }.

Record vehicle_part := {
  mount : Z * Z;
  id : vpart_id;
  base : item;
  removed : bool;
  crew_id : Z;
  target : tripoint * tripoint
}.

Record vehicle := { parts : list vehicle_part }.

(** What [vehicle_part.cpp] calls and does not define. *)
Record world := {
  find_type : itype_id -> itype;                    (* item::find_type *)
  vpart_obj : vpart_id -> vpart_info;               (* vpart_id::obj *)
  critter_by_id : Z -> option npc;                  (* g->critter_by_id<npc> *)
  legacy_volume_factor : Z;                         (* units::legacy_volume_factor, ml *)
  round_double : Q -> Q;                            (* rounding to a double *)
  round_float : Q -> Q;                             (* rounding to a float *)
  base_ammo_current : item -> itype_id;             (* item::ammo_current *)
  base_ammo_capacity : item -> Z;                   (* item::ammo_capacity *)
  base_ammo_remaining : item -> Z;                  (* item::ammo_remaining *)
  base_ammo_set : itype_id -> Z -> item -> item;    (* item::ammo_set *)
  base_ammo_unset : item -> item;                   (* item::ammo_unset *)
  base_ammo_consume : Z -> tripoint -> item -> Z * item;  (* item::ammo_consume *)
  base_is_reloadable_with : item -> itype_id -> bool      (* item::is_reloadable_with *)
}.

(** Field updates. *)
Definition set_base (new_base : item) (pt : vehicle_part) : vehicle_part :=
  {| mount := mount pt; id := id pt; base := new_base; removed := removed pt;
     crew_id := crew_id pt; target := target pt |}.

Definition with_crew_id (c : Z) (pt : vehicle_part) : vehicle_part :=
  {| mount := mount pt; id := id pt; base := base pt; removed := removed pt;
     crew_id := c; target := target pt |}.

Definition with_contents (cs : list item) (it : item) : item :=
  mk_item (typeId it) (charges it) (item_damage it) cs.

Definition with_charges (c : Z) (it : item) : item :=
  mk_item (typeId it) c (item_damage it) (contents it).

(** [std::list::front] and [std::list::back], on a list that is not empty. *)
Definition front (l : list item) : option item := hd_error l.
Definition back (l : list item) : option item := hd_error (rev l).

(** Replaces the last element, the effect of a write through
    [base.contents.back()]. *)
Fixpoint update_back (f : item -> item) (l : list item) : list item :=
  match l with
  | [] => []
  | [x] => [f x]
  | x :: tl => x :: update_back f tl
  end.

(** ** The methods of [vehicle_part] *)

Section VehiclePart.

Variable g : world.

(** Arithmetic of [double] and of [float]. *)
Definition dsub (x y : Q) : Q := round_double g (x - y).
Definition dmul (x y : Q) : Q := round_double g (x * y).
Definition ddiv (x y : Q) : Q := round_double g (x / y).
Definition fmul (x y : Q) : Q := round_float g (x * y).
Definition fdiv (x y : Q) : Q := round_float g (x / y).
Definition to_float (x : Q) : Q := round_float g x.

Definition info (pt : vehicle_part) : vpart_info := vpart_obj g (id pt).

Definition has_flag (f : string) (vp : vpart_info) : bool :=
  existsb (String.eqb f) (flags vp).


(** *** Queries of the embedded item

    The queries below are methods of [item], defined in item.cpp and not in
    this file.  The spec gives them as capability queries of the embedded
    item; they are read here from the type of the item, so that a change of
    damage, charges or contents leaves them alone. *)

(** The type of an item, [item::type]. *)
Definition item_type (it : item) : itype := find_type g (typeId it).

(** Modelled from the spec: [item::max_damage], the maximal damage of the
    embedded item. *)
Definition max_damage (it : item) : Z := damage_max (item_type it).

(** Modelled from the spec: [item::is_gun], "the embedded item is classified
    as a ranged weapon (gun)". *)
Definition is_gun (it : item) : bool := gun (item_type it).

(** Modelled from the spec: [item::is_magazine], "the embedded item is a
    magazine". *)
Definition is_magazine (it : item) : bool :=
  match magazine (item_type it) with Some _ => true | None => false end.

(** Modelled from the spec: [item::ammo_type], the ammo type of a
    magazine. *)
Definition ammo_type (it : item) : string :=
  match magazine (item_type it) with Some t => t | None => "NULL" end.

(** Modelled from the spec: [item::is_watertight_container], "the embedded
    item reports being a sealable liquid-tight container". *)
Definition is_watertight_container (it : item) : bool :=
  match container (item_type it) with
  | Some c => watertight c && seals c
  | None => false
  end.

(** Modelled from the spec: [item::get_container_capacity], the "container
    liquid-capacity". *)
Definition get_container_capacity (it : item) : Z :=
  match container (item_type it) with Some c => contains c | None => 0 end.

(** Modelled from the spec: [item::is_fuel], the item has a "fuel-energy-per-
    unit". *)
Definition is_fuel (it : item) : bool :=
  match fuel (item_type it) with Some _ => true | None => false end.

(** Modelled from the spec: [item::fuel_energy], the "fuel-energy-per-unit
    query". *)
Definition fuel_energy (it : item) : Q :=
  match fuel (item_type it) with Some e => e | None => 0%Q end.

(** Modelled from the spec: [item::set_damage] (item.cpp) stores the damage
    it is given; [set_hp] "sets" the damage of the embedded item. *)
Definition set_damage (qty : Q) (it : item) : item :=
  mk_item (typeId it) (charges it) qty (contents it).

(** Modelled from the spec: the constructor [item( id, turn, qty )] that
    [item::emplace_back] forwards to builds one stack of [qty] charges. *)
Definition item_new (ty : itype_id) (qty : Z) : item := mk_item ty qty 0%Q [].

Definition emplace_back (ty : itype_id) (qty : Z) (it : item) : item :=
  with_contents (contents it ++ [item_new ty qty]) it.

(** *** Roles *)

Definition is_engine (pt : vehicle_part) : bool := has_flag "ENGINE" (info pt).

Definition is_light (pt : vehicle_part) : bool :=
  let vp := info pt in
  has_flag "CONE_LIGHT" vp || has_flag "CIRCLE_LIGHT" vp || has_flag "AISLE_LIGHT" vp
  || has_flag "DOME_LIGHT" vp || has_flag "ATOMIC_LIGHT" vp.

Definition is_tank (pt : vehicle_part) : bool := is_watertight_container (base pt).

Definition is_battery (pt : vehicle_part) : bool :=
  is_magazine (base pt) && String.eqb (ammo_type (base pt)) "battery".

Definition is_reactor (pt : vehicle_part) : bool := has_flag "REACTOR" (info pt).

Definition is_turret (pt : vehicle_part) : bool := is_gun (base pt).

Definition is_seat (pt : vehicle_part) : bool := has_flag "SEAT" (info pt).

(** *** Damage and health *)

Definition damage (pt : vehicle_part) : Q := to_float (item_damage (base pt)).

Definition damage_percent (pt : vehicle_part) : Q :=
  ddiv (item_damage (base pt)) (inject_Z (max_damage (base pt))).

Definition health_percent (pt : vehicle_part) : Q :=
  dsub 1 (ddiv (item_damage (base pt)) (inject_Z (max_damage (base pt)))).

Definition hp (pt : vehicle_part) : Z :=
  let dur := inject_Z (durability (info pt)) in
  double_to_int (dmul dur (health_percent pt)).

Definition is_broken (pt : vehicle_part) : bool :=
  Qle_bool (inject_Z (max_damage (base pt))) (item_damage (base pt)).

(** *** Ammo, fuel and capacity *)

Definition contents_empty (it : item) : bool :=
  match contents it with [] => true | _ => false end.

Definition ammo_current (pt : vehicle_part) : itype_id :=
  if is_battery pt then "battery"
  else if is_reactor pt || is_turret pt then base_ammo_current g (base pt)
  else if is_tank pt && negb (contents_empty (base pt)) then
    match front (contents (base pt)) with
    | Some it => typeId it
    | None => "null"            (* not reached: the contents are not empty *)
    end
  else if is_engine pt then
    if negb (String.eqb (fuel_type (info pt)) "muscle") then fuel_type (info pt)
    else "null"
  else "null".

Definition ammo_capacity (pt : vehicle_part) : Z :=
  if is_battery pt || is_reactor pt || is_turret pt then base_ammo_capacity g (base pt)
  else if is_watertight_container (base pt) then
    Z.quot (get_container_capacity (base pt))
           (Z.max (volume (find_type g (ammo_current pt))) 1)
  else 0.

Definition ammo_remaining (pt : vehicle_part) : Z :=
  if is_battery pt || is_reactor pt || is_turret pt then base_ammo_remaining g (base pt)
  else if is_watertight_container (base pt) then
    match back (contents (base pt)) with
    | None => 0
    | Some it => charges it
    end
  else 0.

(** The quantity that [ammo_set] stores in a tank: [pt] is the part once its
    contents are cleared, [limit] the local of that name. *)
Definition ammo_set_limit (pt : vehicle_part) (ammo : itype_id) : Z :=
  let liquid := find_type g ammo in
  let stack := Z.quot (legacy_volume_factor g) (Z.max (stack_size liquid) 1) in
  Z.quot (ammo_capacity (set_base (with_contents [] (base pt)) pt)) stack.

Definition ammo_set (ammo : itype_id) (qty : Z) (pt : vehicle_part) : Z * vehicle_part :=
  if is_turret pt then
    let b := base_ammo_set g ammo qty (base pt) in
    (to_int (base_ammo_remaining g b), set_base b pt)
  else if is_battery pt || is_reactor pt then
    let b := base_ammo_set g ammo (if 0 <=? qty then qty else ammo_capacity pt) (base pt) in
    (to_int (base_ammo_remaining g b), set_base b pt)
  else
    let liquid := find_type g ammo in
    if is_tank pt && phase_eqb (phase liquid) LIQUID then
      let cleared := set_base (with_contents [] (base pt)) pt in
      let limit := ammo_set_limit pt ammo in
      let stored := if 0 <=? qty then Z.min qty limit else limit in
      (to_int qty, set_base (emplace_back ammo stored (base cleared)) cleared)
    else (-1, pt).

Definition ammo_unset (pt : vehicle_part) : vehicle_part :=
  if is_battery pt || is_reactor pt || is_turret pt then
    set_base (base_ammo_unset g (base pt)) pt
  else if is_tank pt then set_base (with_contents [] (base pt)) pt
  else pt.

Definition ammo_consume (qty : Z) (pos : tripoint) (pt : vehicle_part) : Z * vehicle_part :=
  if is_battery pt || is_reactor pt then
    let r := base_ammo_consume g qty pos (base pt) in
    (fst r, set_base (snd r) pt)
  else
    let res := to_int (Z.min (ammo_remaining pt) qty) in
    if is_watertight_container (base pt) && negb (contents_empty (base pt)) then
      match back (contents (base pt)) with
      | None => (res, pt)
      | Some liquid =>
          let left := charges liquid - res in
          if left =? 0 then (res, set_base (with_contents [] (base pt)) pt)
          else
            (res, set_base (with_contents
                              (update_back (with_charges left) (contents (base pt)))
                              (base pt)) pt)
      end
    else (res, pt).

(** [None] is the failure of [assert( fuel.is_fuel() )].  The quotient by an
    energy per unit of zero is an infinity or a NaN, which [int] does not hold
    either. *)
Definition consume_energy (ftype : itype_id) (energy : Q) (pt : vehicle_part)
  : option (Q * vehicle_part) :=
  if contents_empty (base pt)
     || (negb (is_battery pt) && negb (is_reactor pt)
         && negb (is_watertight_container (base pt)))
  then Some (0%Q, pt)
  else
    match back (contents (base pt)) with
    | None => Some (0%Q, pt)
    | Some fuel_item =>
        if negb (String.eqb (typeId fuel_item) ftype) then Some (0%Q, pt)
        else if negb (is_fuel fuel_item) then None
        else
          let energy_per_unit := fuel_energy fuel_item in
          let charges_to_use :=
            if Qeq_bool energy_per_unit 0 then int_min
            else ceil_to_int (fdiv energy energy_per_unit) in
          if charges fuel_item <? charges_to_use then
            let had_charges := charges fuel_item in
            Some (fmul (to_float (inject_Z had_charges)) energy_per_unit,
                  set_base (with_contents [] (base pt)) pt)
          else
            Some (fmul (to_float (inject_Z charges_to_use)) energy_per_unit,
                  set_base (with_contents
                              (update_back
                                 (with_charges (charges fuel_item - charges_to_use))
                                 (contents (base pt)))
                              (base pt)) pt)
    end.

Definition can_reload (obj : itype_id) (pt : vehicle_part) : bool :=
  if is_broken pt || (ammo_capacity pt <=? 0) then false
  else if is_reactor pt then base_is_reloadable_with g (base pt) obj
  else if is_tank pt then
    if negb (String.eqb obj "")
       && negb (phase_eqb (phase (find_type g obj)) LIQUID) then false
    else if negb (String.eqb obj "")
            && (negb (String.eqb (ammo_current pt) "null")
                && negb (String.eqb (ammo_current pt) obj)) then false
    else if negb (String.eqb (fuel_type (info pt)) fuel_type_none)
            && negb (String.eqb (fuel_type (info pt)) obj) then false
    else ammo_remaining pt <? ammo_capacity pt
  else false.

(** *** Crew *)

Definition crew (pt : vehicle_part) : option npc :=
  if is_broken pt || (crew_id pt <? 0) then None
  else
    match critter_by_id g (crew_id pt) with
    | None => None
    | Some res => if is_friend res then Some res else None
    end.

Definition set_crew (who : npc) (pt : vehicle_part) : bool * vehicle_part :=
  if is_dead_state who || negb (is_friend who) then (false, pt)
  else if is_broken pt || (negb (is_seat pt) && negb (is_turret pt)) then (false, pt)
  else (true, with_crew_id (getID who) pt).

Definition unset_crew (pt : vehicle_part) : vehicle_part := with_crew_id (-1) pt.

(** ** The helpers of [vehicle] *)

Definition set_hp (qty : Z) (pt : vehicle_part) : vehicle_part :=
  if qty =? durability (info pt) then set_base (set_damage 0%Q (base pt)) pt
  else if qty =? 0 then
    set_base (set_damage (inject_Z (max_damage (base pt))) (base pt)) pt
  else
    let k := ddiv (inject_Z (max_damage (base pt))) (inject_Z (durability (info pt))) in
    set_base (set_damage (dsub (inject_Z (max_damage (base pt))) (dmul (inject_Z qty) k))
                (base pt)) pt.

(** The body of the loop of [assign_seat], for a part [e] other than [pt]. *)
Definition unseat_if_held (who : npc) (e : vehicle_part) : vehicle_part :=
  if is_seat e then
    match crew e with
    | Some n => if getID n =? getID who then unset_crew e else e
    | None => e
    end
  else e.

(** The loop of [assign_seat] over [parts]; [skip] is the position of [pt],
    [j] the position of the head of [l]. *)
Fixpoint unseat_others (who : npc) (skip j : nat) (l : list vehicle_part)
  : list vehicle_part :=
  match l with
  | [] => []
  | e :: tl =>
      (if Nat.eqb j skip then e else unseat_if_held who e)
        :: unseat_others who skip (S j) tl
  end.

(** Writes [x] at position [i], as a write through the reference [pt]. *)
Fixpoint store_part (i : nat) (x : vehicle_part) (l : list vehicle_part)
  : list vehicle_part :=
  match l, i with
  | [], _ => []
  | _ :: tl, O => x :: tl
  | e :: tl, S i' => e :: store_part i' x tl
  end.

(** [pt] is the part at position [i] of [parts]; a reference that designates
    no part of the vehicle is not modelled, the call is then refused. *)
Definition assign_seat (i : nat) (who : npc) (v : vehicle) : bool * vehicle :=
  match nth_error (parts v) i with
  | None => (false, v)
  | Some pt =>
      if negb (is_seat pt) then (false, v)
      else
        let r := set_crew who pt in
        if negb (fst r) then (false, v)
        else (true, {| parts := unseat_others who i 0 (store_part i (snd r) (parts v)) |})
  end.

End VehiclePart.

(** ** Roles under the fixed precedence battery, reactor or turret, tank *)

Definition tank_role (g : world) (pt : vehicle_part) : bool :=
  negb (is_battery g pt) && negb (is_reactor g pt) && negb (is_turret g pt)
  && is_tank g pt.



(** A liquid of another type than the candidate [obj] is loaded: one of the
    stacks of the contents, whichever, is of a type that is neither [obj] nor
    the null type. *)
Definition other_liquid_held (pt : vehicle_part) (obj : itype_id) : bool :=
  existsb (fun it => negb (String.eqb (typeId it) "null")
                     && negb (String.eqb (typeId it) obj))
          (contents (base pt)).

(** The descriptor names a fuel type, and it is not [obj]. *)
Definition fuel_pinned_other (g : world) (pt : vehicle_part) (obj : itype_id) : bool :=
  negb (String.eqb (fuel_type (info g pt)) fuel_type_none)
  && negb (String.eqb (fuel_type (info g pt)) obj).

(** The crew of the part [e], as [crew] reports it, is the NPC [who]. *)
Definition crew_is (g : world) (who : npc) (e : vehicle_part) : bool :=
  match crew g e with
  | Some n => getID n =? getID who
  | None => false
  end.

(** The registry answers a lookup by id with an NPC of that id. *)
Definition registry_by_id (g : world) : Prop :=
  forall i n, critter_by_id g i = Some n -> getID n = i.

(** The NPC [who] is the one the registry holds under its id. *)
Definition registered (g : world) (who : npc) : Prop :=
  0 <= getID who /\ critter_by_id g (getID who) = Some who.

(** ** A small world to evaluate the methods in *)

Module Sample.

Definition no_type : itype :=
  {| phase := PNULL; volume := 0; stack_size := 1; damage_max := 4000; gun := false;
     magazine := None; container := None; fuel := None |}.

Definition liquid_type (energy : option Q) : itype :=
  {| phase := LIQUID; volume := 250; stack_size := 1; damage_max := 4000; gun := false;
     magazine := None; container := None; fuel := energy |}.

Definition tank_type : itype :=
  {| phase := SOLID; volume := 15000; stack_size := 1; damage_max := 4000; gun := false;
     magazine := None;
     container := Some {| contains := 60000; seals := true; watertight := true |};
     fuel := None |}.

Definition gun_type : itype :=
  {| phase := SOLID; volume := 3000; stack_size := 1; damage_max := 4000; gun := true;
     magazine := None; container := None; fuel := None |}.

(** A gun with a sealed, watertight reservoir. *)
Definition water_gun_type : itype :=
  {| phase := SOLID; volume := 3000; stack_size := 1; damage_max := 4000; gun := true;
     magazine := None;
     container := Some {| contains := 1000; seals := true; watertight := true |};
     fuel := None |}.

Definition types (t : itype_id) : itype :=
  if String.eqb t "water_clean" then liquid_type None
  else if String.eqb t "gasoline" then liquid_type (Some (34 # 1))
  else if String.eqb t "metal_tank" then tank_type
  else if String.eqb t "m249" then gun_type
  else if String.eqb t "water_cannon" then water_gun_type
  else no_type.

Definition vparts (p : vpart_id) : vpart_info :=
  if String.eqb p "tank" then {| durability := 100; flags := []; fuel_type := "null" |}
  else if String.eqb p "seat" then {| durability := 7; flags := ["SEAT"]; fuel_type := "null" |}
  else if String.eqb p "turret" then {| durability := 40; flags := []; fuel_type := "null" |}
  else {| durability := 0; flags := []; fuel_type := "null" |}.

Definition alice : npc := {| getID := 3; is_dead_state := false; is_friend := true |}.

Definition npcs (i : Z) : option npc := if i =? 3 then Some alice else None.

(** The gun and magazine code of [item] is not exercised by a tank or a
    seat; the sample keeps the loaded rounds in [charges].  The sample
    arithmetic is exact. *)
Definition w : world :=
  {| find_type := types;
     vpart_obj := vparts;
     critter_by_id := npcs;
     legacy_volume_factor := 250;
     round_double := fun x => x;
     round_float := fun x => x;
     base_ammo_current := fun _ => "null";
     base_ammo_capacity := fun _ => 100;
     base_ammo_remaining := fun it => charges it;
     base_ammo_set := fun _ q it => with_charges q it;
     base_ammo_unset := fun it => with_charges 0 it;
     base_ammo_consume := fun q _ it =>
       (Z.min q (charges it), with_charges (charges it - Z.min q (charges it)) it);
     base_is_reloadable_with := fun _ _ => false |}.

Definition origin : tripoint := {| tx := 0; ty := 0; tz := 0 |}.

Definition part (p : vpart_id) (b : item) : vehicle_part :=
  {| mount := (0, 0); id := p; base := b; removed := false; crew_id := -1;
     target := (origin, origin) |}.

(** A tank that holds ten charges of gasoline and, added after them, five of
    clean water. *)
Definition mixed_tank : vehicle_part :=
  part "tank" (mk_item "metal_tank" 0 0
                 [mk_item "gasoline" 10 0 []; mk_item "water_clean" 5 0 []]).

Definition water_tank (n : Z) : vehicle_part :=
  part "tank" (mk_item "metal_tank" 0 0 [mk_item "water_clean" n 0 []]).

Definition fuel_tank (n : Z) : vehicle_part :=
  part "tank" (mk_item "metal_tank" 0 0 [mk_item "gasoline" n 0 []]).

Definition empty_tank : vehicle_part := part "tank" (mk_item "metal_tank" 0 0 []).

(** A seat of durability 7 whose item has taken 3000 of 4000 damage. *)
Definition worn_seat : vehicle_part := part "seat" (mk_item "seat" 0 (3000 # 1) []).

Definition seat : vehicle_part := part "seat" (mk_item "seat" 0 0 []).


(** A gun that is also a watertight container: five rounds, and three
    charges of clean water in its contents. *)
Definition water_cannon : vehicle_part :=
  part "turret" (mk_item "water_cannon" 5 0 [mk_item "water_clean" 3 0 []]).

Definition car : vehicle := {| parts := [seat; empty_tank; seat] |}.

End Sample.
(** ** The rest of the embedded item, and the methods that use it *)

Definition fault_id := string.

(** The fields of [item] that the methods above leave alone.  The sets of
    the source are lists read as sets: [set_count], [set_insert] and
    [set_erase] are [count], [insert] and [erase] of [std::set]. *)
Record item_rest := {
  item_tags : list string;
  faults : list fault_id;
  active : bool;
  item_vars : list (string * string)
}.

Definition set_count (x : string) (s : list string) : bool := existsb (String.eqb x) s.

Definition set_insert (x : string) (s : list string) : list string :=
  if set_count x s then s else x :: s.

Definition set_erase (x : string) (s : list string) : list string :=
  filter (fun y => negb (String.eqb x y)) s.

(** [std::map]: [vars[ k ] = v] and the lookup behind [get_var]. *)
Definition map_set (k v : string) (m : list (string * string)) : list (string * string) :=
  (k, v) :: filter (fun p => negb (String.eqb k (fst p))) m.

Definition map_get (k : string) (m : list (string * string)) : option string :=
  match find (fun p => String.eqb k (fst p)) m with
  | Some p => Some (snd p)
  | None => None
  end.

(** The decimal text of an [int], as [item::set_var( name, int )] stores
    it. *)
Definition int_text (z : Z) : string := NilZero.string_of_int (Z.to_int z).

Definition with_tags (t : list string) (r : item_rest) : item_rest :=
  {| item_tags := t; faults := faults r; active := active r; item_vars := item_vars r |}.

Definition with_faults (f : list fault_id) (r : item_rest) : item_rest :=
  {| item_tags := item_tags r; faults := f; active := active r; item_vars := item_vars r |}.

(** The wheel slot of an item type. *)
Record islot_wheel := { diameter : Z; width : Z }.

(** What a part prints for the player, [add_msg( m_bad, ... )]. *)
Inductive message :=
  | TooColdToPlant
  | InsufficientPower (pt : vehicle_part).

(** What the methods below call and [vehicle_part.cpp] does not define. *)
Record services := {
  base_fill_with : item -> item -> Z -> item * item;    (* item::fill_with: base and liquid afterwards *)
  rotten : item -> item_rest -> bool;                    (* item::rotten *)
  base_faults_potential : item -> list fault_id;         (* item::faults_potential *)
  item_has_flag : item -> item_rest -> string -> bool;   (* item::has_flag *)
  wheel : itype_id -> option islot_wheel;                (* itype::wheel *)
  vpart_item : vpart_id -> itype_id;                     (* vpart_info::item *)
  epower : vpart_id -> Z;                                (* vpart_info::epower *)
  warm_enough_to_plant : bool;                           (* warm_enough_to_plant() *)
  fuel_left : vehicle -> itype_id -> bool -> Z;          (* vehicle::fuel_left *)
  getlocal : tripoint -> tripoint;                       (* map::getlocal *)
  veh_at : tripoint -> bool                              (* map::veh_at finds a vehicle *)
}.

Section VehiclePartRest.

Variable g : world.
Variable sv : services.

(** The constructor [vehicle_part( vp, dx, dy, obj )]: the part, the rest of
    its base item, and whether [debugmsg] reports an unexpected item.
    [blank] gives the members that the constructor leaves to their default
    initialisers. *)
Definition new_part (blank : vehicle_part) (vp : vpart_id) (dx dy : Z)
  (obj : item) (obj_rest : item_rest) : vehicle_part * item_rest * bool :=
  ({| mount := (dx, dy); id := vp; base := obj; removed := removed blank;
      crew_id := crew_id blank; target := target blank |},
   with_tags (set_insert "VEHICLE" (item_tags obj_rest)) obj_rest,
   negb (String.eqb (typeId obj) (vpart_item sv vp))).

Definition properties_to_item (pt : vehicle_part) (rest : item_rest) : item * item_rest :=
  let tmp := with_tags (set_erase "VEHICLE" (item_tags rest)) rest in
  if item_has_flag sv (base pt) tmp "CABLE_SPOOL" then
    let local_pos := getlocal sv (fst (target pt)) in
    let tags :=
      if negb (veh_at sv local_pos) then set_insert "NO_DROP" (item_tags tmp)
      else item_tags tmp in
    let vars :=
      map_set "state" "pay_out_cable"
        (map_set "source_z" (int_text (tz (fst (target pt))))
           (map_set "source_y" (int_text (ty (fst (target pt))))
              (map_set "source_x" (int_text (tx (fst (target pt)))) (item_vars tmp)))) in
    (base pt, {| item_tags := tags; faults := faults tmp; active := true; item_vars := vars |})
  else (base pt, tmp).

(** The part, and the liquid as [item::fill_with] leaves it. *)
Definition fill_with (liquid : item) (liquid_rest : item_rest) (qty : Z)
  (pt : vehicle_part) : bool * vehicle_part * item :=
  if active liquid_rest || rotten sv liquid liquid_rest then (false, pt, liquid)
  else if negb (is_tank g pt) || negb (can_reload g (typeId liquid) pt) then
    (false, pt, liquid)
  else
    let r := base_fill_with sv (base pt) liquid qty in
    (true, set_base (fst r) pt, snd r).

(** [vehicle_part::faults] *)
Definition part_faults (rest : item_rest) : list fault_id := faults rest.

Definition faults_potential (pt : vehicle_part) : list fault_id :=
  base_faults_potential sv (base pt).

Definition fault_set (f : fault_id) (pt : vehicle_part) (rest : item_rest)
  : bool * item_rest :=
  if negb (set_count f (faults_potential pt)) then (false, rest)
  else (true, with_faults (set_insert f (faults rest)) rest).

(** Modelled from the spec: [item::is_wheel], "the embedded item is
    classified as a wheel". *)
Definition is_wheel (it : item) : bool :=
  match wheel sv (typeId it) with Some _ => true | None => false end.

Definition wheel_of (it : item) : islot_wheel :=
  match wheel sv (typeId it) with
  | Some w => w
  | None => {| diameter := 0; width := 0 |}
  end.

Definition wheel_area (pt : vehicle_part) : Z :=
  if is_wheel (base pt) then diameter (wheel_of (base pt)) * width (wheel_of (base pt))
  else 0.

Definition wheel_diameter (pt : vehicle_part) : Z :=
  if is_wheel (base pt) then diameter (wheel_of (base pt)) else 0.

Definition wheel_width (pt : vehicle_part) : Z :=
  if is_wheel (base pt) then width (wheel_of (base pt)) else 0.

Definition reset_target (pos : tripoint) (pt : vehicle_part) : vehicle_part :=
  {| mount := mount pt; id := id pt; base := base pt; removed := removed pt;
     crew_id := crew_id pt; target := (pos, pos) |}.

(** [vehicle::can_enable]: the answer, the messages printed, and whether
    [debugmsg] reports a removed or foreign part.  [present] tells whether
    [pt] is one of the parts of the vehicle, the test [&e == &pt] of the
    source. *)
Definition can_enable (v : vehicle) (present : bool) (pt : vehicle_part) (alert : bool)
  : bool * list message * bool :=
  let debug := negb present || removed pt in
  if is_broken g pt then (false, [], debug)
  else if has_flag "PLANTER" (info g pt) && negb (warm_enough_to_plant sv) then
    (false, if alert then [TooColdToPlant] else [], debug)
  else if (epower sv (id pt) <? 0) && (fuel_left sv v fuel_type_battery true <=? 0) then
    (false, if alert then [InsufficientPower pt] else [], debug)
  else (true, [], debug).

End VehiclePartRest.

(** A world for the methods above. *)
Module SampleRest.

Definition plain : item_rest :=
  {| item_tags := ["FIT"]; faults := []; active := false; item_vars := [] |}.

Definition burning : item_rest :=
  {| item_tags := []; faults := []; active := true; item_vars := [] |}.

Definition sv : services :=
  {| base_fill_with := fun b l q =>
       (with_contents [mk_item (typeId l) q 0 []] b, with_charges (charges l - q) l);
     rotten := fun _ _ => false;
     base_faults_potential := fun _ => ["fault_belt"; "fault_glowplug"];
     item_has_flag := fun it r f => String.eqb f "CABLE_SPOOL" && String.eqb (typeId it) "jumper_cable";
     wheel := fun t => if String.eqb t "wheel" then Some {| diameter := 17; width := 9 |}
                       else None;
     vpart_item := fun p => if String.eqb p "tank" then "metal_tank" else p;
     epower := fun p => if String.eqb p "seat" then 0 else -10;
     warm_enough_to_plant := false;
     fuel_left := fun _ _ _ => 0;
     getlocal := fun p => p;
     veh_at := fun _ => false |}.

Definition cable : vehicle_part :=
  {| mount := (0, 0); id := "jumper_cable"; base := mk_item "jumper_cable" 0 0 [];
     removed := false; crew_id := -1;
     target := ({| tx := 12; ty := -3; tz := 0 |}, {| tx := 1; ty := 1; tz := 0 |}) |}.

Definition wheel_part : vehicle_part := Sample.part "wheel" (mk_item "wheel" 0 0 []).

Definition lamp : vehicle_part := Sample.part "lamp" (mk_item "lamp" 0 0 []).

End SampleRest.

(** ** A world with the data at the edges of the arithmetic *)

Module SampleEdge.

(** A liquid that stacks 251 to the unit of volume, and a fuel that yields no
    energy. *)
Definition types (t : itype_id) : itype :=
  if String.eqb t "syrup" then
    {| phase := LIQUID; volume := 250; stack_size := 251; damage_max := 4000;
       gun := false; magazine := None; container := None; fuel := None |}
  else if String.eqb t "ballast" then Sample.liquid_type (Some 0%Q)
  else Sample.types t.

(** A tank whose descriptor names gasoline as its fuel. *)
Definition vparts (p : vpart_id) : vpart_info :=
  if String.eqb p "gas_tank" then
    {| durability := 100; flags := []; fuel_type := "gasoline" |}
  else Sample.vparts p.

Definition w : world :=
  {| find_type := types;
     vpart_obj := vparts;
     critter_by_id := Sample.npcs;
     legacy_volume_factor := 250;
     round_double := fun x => x;
     round_float := fun x => x;
     base_ammo_current := fun _ => "null";
     base_ammo_capacity := fun _ => 100;
     base_ammo_remaining := fun it => charges it;
     base_ammo_set := fun _ q it => with_charges q it;
     base_ammo_unset := fun it => with_charges 0 it;
     base_ammo_consume := fun q _ it =>
       (Z.min q (charges it), with_charges (charges it - Z.min q (charges it)) it);
     base_is_reloadable_with := fun _ _ => false |}.

Definition gas_tank (n : Z) : vehicle_part :=
  Sample.part "gas_tank" (mk_item "metal_tank" 0 0 [mk_item "gasoline" n 0 []]).

Definition ballast_tank (n : Z) : vehicle_part :=
  Sample.part "tank" (mk_item "metal_tank" 0 0 [mk_item "ballast" n 0 []]).

End SampleEdge.

(** * Properties *)

(** ** Numbers *)

Lemma to_int_id (z : Z) : in_int_range z -> to_int z = z.
Proof.
  unfold in_int_range, int_min, int_max, to_int. intros H.
  rewrite Z.mod_small; lia.
Qed.

Lemma double_to_int_inject (n : Z) : double_to_int (inject_Z n) = n.
Proof. unfold double_to_int, inject_Z. simpl. apply Z.quot_1_r. Qed.

Lemma double_to_int_Qeq (x y : Q) : (x == y)%Q -> double_to_int x = double_to_int y.
Proof.
  destruct x as [a b], y as [c d]. unfold Qeq, double_to_int. simpl. intros H.
  rewrite <- (Z.quot_mul_cancel_r a (Zpos b) (Zpos d)) by lia.
  rewrite H.
  rewrite (Z.mul_comm (Zpos b) (Zpos d)).
  apply Z.quot_mul_cancel_r; lia.
Qed.

Lemma quot_trunc (n d : Z) :
  0 < d ->
  Z.abs (Z.quot n d) * d <= Z.abs n < (Z.abs (Z.quot n d) + 1) * d
  /\ 0 <= Z.quot n d * n.
Proof.
  intros Hd.
  destruct (Z_le_gt_dec 0 n) as [Hn | Hn].
  - rewrite Z.quot_div_nonneg by lia.
    pose proof (Z.div_mod n d ltac:(lia)) as E.
    pose proof (Z.mod_pos_bound n d Hd) as B.
    assert (0 <= n / d) by (apply Z.div_pos; lia).
    rewrite !Z.abs_eq by lia. nia.
  - replace n with (- (- n)) by lia.
    rewrite Z.quot_opp_l by lia.
    rewrite Z.quot_div_nonneg by lia.
    pose proof (Z.div_mod (- n) d ltac:(lia)) as E.
    pose proof (Z.mod_pos_bound (- n) d Hd) as B.
    assert (0 <= (- n) / d) by (apply Z.div_pos; lia).
    rewrite !Z.abs_opp. rewrite !Z.abs_eq by lia. nia.
Qed.


(** ** Lists of stacks *)

Lemma back_app (l : list item) (x : item) : back (l ++ [x]) = Some x.
Proof. unfold back. rewrite rev_app_distr. reflexivity. Qed.

Lemma back_nonempty (l : list item) :
  l <> [] -> exists init x, l = init ++ [x].
Proof.
  intros H. destruct (exists_last H) as [init [x E]]. exists init, x. exact E.
Qed.

Lemma back_cases (l : list item) :
  l = [] \/ exists init x, l = init ++ [x].
Proof.
  destruct l as [| y tl]; [left; reflexivity |].
  right. apply back_nonempty. discriminate.
Qed.

Lemma update_back_app (f : item -> item) (l : list item) (x : item) :
  update_back f (l ++ [x]) = l ++ [f x].
Proof.
  induction l as [| y tl IH]; [reflexivity |].
  simpl. rewrite IH. destruct (tl ++ [x]) eqn:E; [| reflexivity].
  destruct tl; discriminate.
Qed.

Lemma contents_empty_app (b : item) (init : list item) (x : item) :
  contents b = init ++ [x] -> contents_empty b = false.
Proof.
  unfold contents_empty. intros ->. destruct init; reflexivity.
Qed.

Section Readings.

Variable g : world.

(** ** Roles *)

Lemma tank_role_inv (pt : vehicle_part) :
  tank_role g pt = true ->
  is_battery g pt = false /\ is_reactor g pt = false /\ is_turret g pt = false
  /\ is_tank g pt = true.
Proof.
  unfold tank_role. intros H.
  apply andb_prop in H as [H Ht]. apply andb_prop in H as [H Hg].
  apply andb_prop in H as [Hb Hr].
  apply negb_true_iff in Hb, Hr, Hg. auto.
Qed.


(** The roles read the type of the embedded item and the descriptor, which a
    change of contents leaves alone. *)
Lemma roles_with_contents (pt : vehicle_part) (cs : list item) :
  let pt' := set_base (with_contents cs (base pt)) pt in
  is_battery g pt' = is_battery g pt /\ is_reactor g pt' = is_reactor g pt
  /\ is_turret g pt' = is_turret g pt /\ is_tank g pt' = is_tank g pt
  /\ is_engine g pt' = is_engine g pt /\ info g pt' = info g pt.
Proof. repeat split. Qed.

(** ** Current ammo *)

(** A tank reports the type of the first stack of its contents. *)
Lemma ammo_current_tank_front (pt : vehicle_part) (first : item) (rest : list item) :
  tank_role g pt = true ->
  contents (base pt) = first :: rest ->
  ammo_current g pt = typeId first.
Proof.
  intros Hrole Hc. destruct (tank_role_inv pt Hrole) as (Hb & Hr & Hg & Ht).
  unfold ammo_current, contents_empty. rewrite Hb, Hr, Hg, Ht, Hc. reflexivity.
Qed.

(** With a single stack the first stack is the last one. *)
Lemma ammo_current_tank_single (pt : vehicle_part) (liquid : item) :
  tank_role g pt = true ->
  contents (base pt) = [liquid] ->
  option_map typeId (back (contents (base pt))) = Some (ammo_current g pt).
Proof.
  intros Hrole Hc. rewrite (ammo_current_tank_front pt liquid [] Hrole Hc), Hc.
  reflexivity.
Qed.

End Readings.

(** C1: on a tank that holds gasoline and, added after it, clean water,
    [ammo_current] answers with the type of the first stack, gasoline, where
    the last stack is clean water: the stack that [ammo_remaining] counts
    and that [consume_energy] looks at, which finds no gasoline to draw
    from. *)
Theorem ammo_current_first_not_last :
  tank_role Sample.w Sample.mixed_tank = true
  /\ contents (base Sample.mixed_tank)
     = [mk_item "gasoline" 10 0 []; mk_item "water_clean" 5 0 []]
  /\ ammo_current Sample.w Sample.mixed_tank = "gasoline"
  /\ option_map typeId (back (contents (base Sample.mixed_tank))) = Some "water_clean"
  /\ ammo_remaining Sample.w Sample.mixed_tank = 5
  /\ consume_energy Sample.w (ammo_current Sample.w Sample.mixed_tank) (34 # 1)
       Sample.mixed_tank
     = Some (0%Q, Sample.mixed_tank).
Proof. repeat split. Qed.

(** ** Hit points *)

(** *** Truncation *)

Lemma double_to_int_near (x : Q) (h : Z) :
  (inject_Z h - 1 < x)%Q -> (x < inject_Z h + 1)%Q ->
  Z.abs (double_to_int x - h) <= 1.
Proof.
  destruct x as [n d]. unfold double_to_int, Qlt, Qminus, Qplus, Qopp, inject_Z.
  simpl. intros H1 H2.
  destruct (quot_trunc n (Zpos d) ltac:(lia)) as [[B1 B2] B3].
  set (q := Z.quot n (Z.pos d)) in *.
  destruct (Z_le_gt_dec 0 n) as [Hn | Hn].
  - assert (0 <= q) by nia.
    rewrite (Z.abs_eq q) in B1, B2 by lia. rewrite (Z.abs_eq n) in B1, B2 by lia.
    assert (h - 2 < q) by nia. assert (q < h + 1) by nia. lia.
  - assert (q <= 0) by nia.
    rewrite (Z.abs_neq q) in B1, B2 by lia. rewrite (Z.abs_neq n) in B1, B2 by lia.
    assert (h - 1 < q) by nia. assert (q < h + 2) by nia. lia.
Qed.

Lemma double_to_int_range (x : Q) (D : Z) :
  0 <= D -> (- (1) < x)%Q -> (x < inject_Z D + 1)%Q -> 0 <= double_to_int x <= D.
Proof.
  destruct x as [n d]. unfold double_to_int, Qlt, Qminus, Qplus, Qopp, inject_Z.
  simpl. intros HD H1 H2.
  destruct (quot_trunc n (Zpos d) ltac:(lia)) as [[B1 B2] B3].
  set (q := Z.quot n (Z.pos d)) in *.
  destruct (Z_le_gt_dec 0 n) as [Hn | Hn].
  - assert (0 <= q) by nia.
    rewrite (Z.abs_eq q) in B1, B2 by lia. rewrite (Z.abs_eq n) in B1, B2 by lia.
    split; [lia |]. assert (q < D + 1) by nia. lia.
  - assert (q <= 0) by nia.
    rewrite (Z.abs_neq q) in B1, B2 by lia. rewrite (Z.abs_neq n) in B1, B2 by lia.
    assert (- 1 < q) by nia. lia.
Qed.

(** *** Accumulated rounding

    [fl] is a rounding of relative error [eps]; [D] stands for the
    durability, [M] for the maximal damage, [h] for the hit points. *)

Section Rounding.

Local Open Scope Q_scope.

Variable fl : Q -> Q.
Variable eps : Q.
Hypothesis fl_ok : forall x, Qabs (fl x - x) <= eps * Qabs x.

Lemma eps_nonneg : 0 <= eps.
Proof.
  pose proof (fl_ok 1) as H. pose proof (Qabs_nonneg (fl 1 - 1)) as P.
  change (Qabs 1) with 1 in H. lra.
Qed.

Lemma fl_bound (x B : Q) : - B <= x <= B -> x - eps * B <= fl x <= x + eps * B.
Proof.
  intros [H1 H2]. pose proof (fl_ok x) as H. pose proof eps_nonneg as E.
  assert (Hx : Qabs x <= B) by (apply Qabs_Qle_condition; split; assumption).
  assert (He : eps * Qabs x <= eps * B) by nra.
  apply Qabs_Qle_condition in H. destruct H as [Ha Hb]. split; lra.
Qed.

Variables D M : Q.
Hypothesis D_pos : 1 <= D.
Hypothesis M_pos : 0 < M.
Hypothesis eps_small : 11 * eps * D < 1.

Lemma eps_lt : 11 * eps < 1.
Proof. pose proof eps_nonneg. nra. Qed.

(** The reading of the hit points of a part whose damage is [d]. *)
Lemma reading_range (d : Q) :
  0 <= d <= M ->
  let x := fl (D * fl (1 - fl (d / M))) in
  - (1) < x /\ x < D + 1.
Proof.
  intros [Hd0 HdM] x. pose proof eps_nonneg as E. pose proof eps_lt as E1.
  set (z := d / M) in *.
  assert (Hz : z * M == d) by (unfold z; field; lra).
  assert (Hzb : 0 <= z <= 1) by (split; nra).
  pose proof (fl_bound z 1 ltac:(split; lra)) as Bq.
  set (q := fl z) in *.
  pose proof (fl_bound (1 - q) 2 ltac:(split; lra)) as Bs.
  set (s := fl (1 - q)) in *.
  assert (Ht : - (3 * eps * D) <= D * s <= D + 3 * eps * D) by (split; nra).
  pose proof (fl_bound (D * s) (2 * D) ltac:(split; nra)) as Bx. fold x in Bx.
  split; nra.
Qed.

(** The reading after [set_hp] with the full durability: no damage. *)
Lemma reading_full :
  let x := fl (D * fl (1 - fl (0 / M))) in
  D - 1 < x /\ x < D + 1.
Proof.
  intros x. pose proof eps_nonneg as E. pose proof eps_lt as E1.
  assert (Hz : 0 / M == 0) by (field; lra).
  pose proof (fl_bound (0 / M) 0 ltac:(split; lra)) as Bq.
  set (q := fl (0 / M)) in *.
  pose proof (fl_bound (1 - q) 1 ltac:(split; lra)) as Bs.
  set (s := fl (1 - q)) in *.
  assert (Ht : D - eps * D <= D * s <= D + eps * D) by (split; nra).
  pose proof (fl_bound (D * s) (2 * D) ltac:(split; nra)) as Bx. fold x in Bx.
  split; nra.
Qed.

(** The reading after [set_hp] with 0: the maximal damage. *)
Lemma reading_none :
  let x := fl (D * fl (1 - fl (M / M))) in
  - (1) < x /\ x < 1.
Proof.
  intros x. pose proof eps_nonneg as E. pose proof eps_lt as E1.
  assert (Hz : M / M == 1) by (field; lra).
  pose proof (fl_bound (M / M) 1 ltac:(split; lra)) as Bq.
  set (q := fl (M / M)) in *.
  pose proof (fl_bound (1 - q) 1 ltac:(split; lra)) as Bs.
  set (s := fl (1 - q)) in *.
  assert (Ht : - (2 * eps * D) <= D * s <= 2 * eps * D) by (split; nra).
  pose proof (fl_bound (D * s) D ltac:(split; nra)) as Bx. fold x in Bx.
  split; nra.
Qed.

(** The reading after [set_hp] with [h], neither 0 nor the durability. *)
Lemma reading_scaled (h : Q) :
  1 <= h -> h <= D ->
  let k := fl (M / D) in
  let d' := fl (M - fl (h * k)) in
  let x := fl (D * fl (1 - fl (d' / M))) in
  h - 1 < x /\ x < h + 1.
Proof.
  intros Hh HhD k d' x. pose proof eps_nonneg as E. pose proof eps_lt as He.
  set (r := M / D) in *.
  assert (Hr : r * D == M) by (unfold r; field; lra).
  assert (Hr0 : 0 < r) by nra.
  set (a := h / D).
  assert (Ha : a * D == h) by (unfold a; field; lra).
  assert (Ha0 : 0 < a <= 1) by (split; nra).
  assert (HMa : h * r == M * a) by (unfold r, a; field; lra).
  assert (Hk : r - eps * r <= k <= r + eps * r) by (apply fl_bound; lra).
  assert (Hu : M * a - eps * M <= h * k <= M * a + eps * M).
  { assert (h * (eps * r) <= eps * M) by nra. split; nra. }
  pose proof (fl_bound (h * k) (2 * M) ltac:(split; nra)) as Bp.
  set (p := fl (h * k)) in *.
  assert (Hp : M * a - 3 * eps * M <= p <= M * a + 3 * eps * M) by (split; nra).
  pose proof (fl_bound (M - p) (2 * M) ltac:(split; nra)) as Bd. fold d' in Bd.
  assert (Hd : M * (1 - a) - 5 * eps * M <= d' <= M * (1 - a) + 5 * eps * M)
    by (split; nra).
  set (z := d' / M) in *.
  assert (Hz : z * M == d') by (unfold z; field; lra).
  assert (Hzb : (1 - a) - 5 * eps <= z <= (1 - a) + 5 * eps) by (split; nra).
  pose proof (fl_bound z 2 ltac:(split; nra)) as Bq.
  set (q := fl z) in *.
  assert (Hq : (1 - a) - 7 * eps <= q <= (1 - a) + 7 * eps) by (split; nra).
  pose proof (fl_bound (1 - q) 2 ltac:(split; nra)) as Bs.
  set (s := fl (1 - q)) in *.
  assert (Hs : a - 9 * eps <= s <= a + 9 * eps) by (split; nra).
  assert (Ht : h - 9 * eps * D <= D * s <= h + 9 * eps * D) by (split; nra).
  pose proof (fl_bound (D * s) (2 * D) ltac:(split; nra)) as Bx. fold x in Bx.
  split; nra.
Qed.

End Rounding.

(** *** Reading and setting *)

Section HitPoints.

Variable g : world.

Lemma hp_set_damage (pt : vehicle_part) (d : Q) :
  hp g (set_base (set_damage d (base pt)) pt)
  = double_to_int
      (round_double g
         (inject_Z (durability (info g pt))
          * round_double g (1 - round_double g (d / inject_Z (max_damage g (base pt))))))%Q.
Proof. reflexivity. Qed.

Lemma hp_reading (pt : vehicle_part) :
  hp g pt
  = double_to_int
      (round_double g
         (inject_Z (durability (info g pt))
          * round_double g
              (1 - round_double g
                     (item_damage (base pt) / inject_Z (max_damage g (base pt))))))%Q.
Proof. reflexivity. Qed.



(** The hit points of a part whose damage lies between 0 and the maximal
    damage lie between 0 and the durability. *)
Lemma hp_range (pt : vehicle_part) (eps : Q) :
  (forall x, Qabs (round_double g x - x) <= eps * Qabs x)%Q ->
  0 < durability (info g pt) ->
  (11 * eps * inject_Z (durability (info g pt)) < 1)%Q ->
  0 < max_damage g (base pt) ->
  (0 <= item_damage (base pt) <= inject_Z (max_damage g (base pt)))%Q ->
  0 <= hp g pt <= durability (info g pt).
Proof.
  intros Hfl Hdur Heps Hmax Hdmg.
  assert (HD : (1 <= inject_Z (durability (info g pt)))%Q)
    by (rewrite <- (Zle_Qle 1); lia).
  assert (HM : (0 < inject_Z (max_damage g (base pt)))%Q)
    by (rewrite <- (Zlt_Qlt 0); lia).
  destruct (reading_range (round_double g) eps Hfl _ _ HD HM Heps _ Hdmg) as [H1 H2].
  rewrite hp_reading. apply double_to_int_range; [lia | exact H1 | exact H2].
Qed.

(** C9: reading the hit points, setting them and reading them again gives
    the first reading back, within one unit, whatever the rounding of the
    [double] operations does within its relative error [eps]. *)
Theorem hp_set_hp_roundtrip (pt : vehicle_part) (eps : Q) :
  (forall x, Qabs (round_double g x - x) <= eps * Qabs x)%Q ->
  0 < durability (info g pt) ->
  (11 * eps * inject_Z (durability (info g pt)) < 1)%Q ->
  0 < max_damage g (base pt) ->
  (0 <= item_damage (base pt) <= inject_Z (max_damage g (base pt)))%Q ->
  Z.abs (hp g (set_hp g (hp g pt) pt) - hp g pt) <= 1.
Proof.
  intros Hfl Hdur Heps Hmax Hdmg.
  pose proof (hp_range pt eps Hfl Hdur Heps Hmax Hdmg) as Hh.
  assert (HD : (1 <= inject_Z (durability (info g pt)))%Q)
    by (rewrite <- (Zle_Qle 1); lia).
  assert (HM : (0 < inject_Z (max_damage g (base pt)))%Q)
    by (rewrite <- (Zlt_Qlt 0); lia).
  set (h := hp g pt) in *. unfold set_hp.
  destruct (h =? durability (info g pt)) eqn:E1.
  - apply Z.eqb_eq in E1. rewrite hp_set_damage, E1.
    destruct (reading_full (round_double g) eps Hfl _ _ HD HM Heps) as [H1 H2].
    apply double_to_int_near; assumption.
  - destruct (h =? 0) eqn:E2.
    + apply Z.eqb_eq in E2. rewrite hp_set_damage, E2.
      destruct (reading_none (round_double g) eps Hfl _ _ HD HM Heps) as [H1 H2].
      apply double_to_int_near.
      * change (inject_Z 0) with 0%Q. lra.
      * change (inject_Z 0) with 0%Q. lra.
    + apply Z.eqb_neq in E1, E2. rewrite hp_set_damage.
      assert (H1h : (1 <= inject_Z h)%Q) by (rewrite <- (Zle_Qle 1); lia).
      assert (HhD : (inject_Z h <= inject_Z (durability (info g pt)))%Q)
        by (rewrite <- Zle_Qle; lia).
      destruct (reading_scaled (round_double g) eps Hfl _ _ HD HM Heps _ H1h HhD)
        as [H1 H2].
      apply double_to_int_near; assumption.
Qed.

End HitPoints.




Lemma sample_rounding (x : Q) :
  (Qabs (round_double Sample.w x - x) <= (1 # 9007199254740992) * Qabs x)%Q.
Proof.
  change (Qabs (x - x) <= (1 # 9007199254740992) * Qabs x)%Q.
  assert (E : (x - x == 0)%Q) by ring. rewrite E.
  pose proof (Qabs_nonneg x) as H. change (Qabs 0) with 0%Q. lra.
Defined.

Lemma hp_set_hp_roundtrip_witness :
  Z.abs (hp Sample.w (set_hp Sample.w (hp Sample.w Sample.worn_seat) Sample.worn_seat)
         - hp Sample.w Sample.worn_seat) <= 1.
Proof.
  apply (hp_set_hp_roundtrip Sample.w Sample.worn_seat (1 # 9007199254740992)).
  - exact sample_rounding.
  - reflexivity.
  - reflexivity.
  - reflexivity.
  - split; vm_compute; discriminate.
Defined.

(** ** Ammo and fuel of a tank *)

Section Tank.

Variable g : world.

Lemma ammo_remaining_tank (pt : vehicle_part) :
  tank_role g pt = true ->
  ammo_remaining g pt
  = match back (contents (base pt)) with None => 0 | Some it => charges it end.
Proof.
  intros Hrole. destruct (tank_role_inv g pt Hrole) as (Hb & Hr & Hg & Ht).
  unfold ammo_remaining. rewrite Hb, Hr, Hg. unfold is_tank in Ht. rewrite Ht.
  reflexivity.
Qed.

Lemma tank_role_with_contents (pt : vehicle_part) (cs : list item) :
  tank_role g (set_base (with_contents cs (base pt)) pt) = tank_role g pt.
Proof. reflexivity. Qed.

Lemma ammo_capacity_tank (pt : vehicle_part) :
  tank_role g pt = true ->
  ammo_capacity g pt
  = Z.quot (get_container_capacity g (base pt))
           (Z.max (volume (find_type g (ammo_current g pt))) 1).
Proof.
  intros Hrole. destruct (tank_role_inv g pt Hrole) as (Hb & Hr & Hg & Ht).
  unfold ammo_capacity. rewrite Hb, Hr, Hg. unfold is_tank in Ht. rewrite Ht.
  reflexivity.
Qed.

(** The limit of [ammo_set]: the capacity of the emptied tank, in units of
    what it then reports as current ammo, divided by the volume of a stack
    of the liquid. *)
Lemma ammo_set_limit_tank (pt : vehicle_part) (ammo : itype_id) :
  tank_role g pt = true ->
  let emptied := set_base (with_contents [] (base pt)) pt in
  ammo_set_limit g pt ammo
  = Z.quot (Z.quot (get_container_capacity g (base pt))
                   (Z.max (volume (find_type g (ammo_current g emptied))) 1))
           (Z.quot (legacy_volume_factor g) (Z.max (stack_size (find_type g ammo)) 1)).
Proof.
  intros Hrole emptied. unfold ammo_set_limit. fold emptied.
  rewrite ammo_capacity_tank by (unfold emptied; rewrite tank_role_with_contents; exact Hrole).
  reflexivity.
Qed.

(** What a tank reports as its current ammo once its contents are cleared:
    the fuel of its descriptor when it is an engine not driven by muscle, the
    null type otherwise. *)
Lemma ammo_current_tank_cleared (pt : vehicle_part) :
  tank_role g pt = true ->
  ammo_current g (set_base (with_contents [] (base pt)) pt)
  = if is_engine g pt
    then if String.eqb (fuel_type (info g pt)) "muscle" then "null"
         else fuel_type (info g pt)
    else "null".
Proof.
  intros Hrole. destruct (tank_role_inv g pt Hrole) as (Hb & Hr & Hg & Ht).
  unfold ammo_current.
  change (is_battery g (set_base (with_contents [] (base pt)) pt)) with (is_battery g pt).
  change (is_reactor g (set_base (with_contents [] (base pt)) pt)) with (is_reactor g pt).
  change (is_turret g (set_base (with_contents [] (base pt)) pt)) with (is_turret g pt).
  change (is_engine g (set_base (with_contents [] (base pt)) pt)) with (is_engine g pt).
  change (info g (set_base (with_contents [] (base pt)) pt)) with (info g pt).
  rewrite Hb, Hr, Hg. simpl.
  unfold contents_empty. simpl. rewrite andb_false_r.
  destruct (is_engine g pt); [| reflexivity].
  destruct (String.eqb (fuel_type (info g pt)) "muscle"); reflexivity.
Qed.

(** C3, as amended: on a tank, for a quantity [qty] that an [int] holds and a
    liquid whose stack volume [legacy_volume_factor / max stack_size 1] is
    not zero, [ammo_set] leaves exactly one stack of that liquid, of
    [min qty limit] charges when [qty] is not negative and of [limit] charges
    when it is, where [limit] is the capacity of the container, in units of
    the volume of what the cleared tank reports as its ammo (at least one
    millilitre), divided by the stack volume; it returns [qty], not the
    stored amount, and [ammo_remaining] then reads the stored amount, which
    is at most [limit]. *)
Theorem ammo_set_tank (pt : vehicle_part) (ammo : itype_id) (qty : Z) :
  tank_role g pt = true ->
  phase (find_type g ammo) = LIQUID ->
  Z.quot (legacy_volume_factor g) (Z.max (stack_size (find_type g ammo)) 1) <> 0 ->
  in_int_range qty ->
  let current :=
    if is_engine g pt
    then if String.eqb (fuel_type (info g pt)) "muscle" then "null"
         else fuel_type (info g pt)
    else "null" in
  let capacity :=
    Z.quot (get_container_capacity g (base pt))
           (Z.max (volume (find_type g current)) 1) in
  let limit :=
    Z.quot capacity
           (Z.quot (legacy_volume_factor g) (Z.max (stack_size (find_type g ammo)) 1)) in
  let r := ammo_set g ammo qty pt in
  fst r = qty
  /\ snd r = set_base (with_contents
                         [item_new ammo (if 0 <=? qty then Z.min qty limit else limit)]
                         (base pt)) pt
  /\ (0 <= qty -> ammo_remaining g (snd r) = Z.min qty limit)
  /\ (qty < 0 -> ammo_remaining g (snd r) = limit)
  /\ ammo_remaining g (snd r) <= limit.
Proof.
  intros Hrole Hliq _ Hqty current capacity limit r.
  destruct (tank_role_inv g pt Hrole) as (Hb & Hr & Hg & Ht).
  assert (Elim : ammo_set_limit g pt ammo = limit).
  { rewrite (ammo_set_limit_tank pt ammo Hrole).
    rewrite (ammo_current_tank_cleared pt Hrole). reflexivity. }
  assert (Er : r = (qty, set_base (with_contents
                         [item_new ammo (if 0 <=? qty then Z.min qty limit else limit)]
                         (base pt)) pt)).
  { unfold r, ammo_set. rewrite Hg, Hb, Hr, Ht, Hliq. simpl.
    rewrite Elim, (to_int_id qty Hqty). reflexivity. }
  rewrite Er. simpl fst. simpl snd.
  assert (Hrem : ammo_remaining g
                   (set_base (with_contents
                      [item_new ammo (if 0 <=? qty then Z.min qty limit else limit)]
                      (base pt)) pt)
                 = if 0 <=? qty then Z.min qty limit else limit).
  { rewrite ammo_remaining_tank by (rewrite tank_role_with_contents; exact Hrole).
    reflexivity. }
  rewrite Hrem.
  split; [reflexivity |]. split; [reflexivity |].
  split; [| split].
  - intros H. apply Z.leb_le in H. rewrite H. reflexivity.
  - intros H. apply Z.leb_gt in H. rewrite H. reflexivity.
  - destruct (0 <=? qty); lia.
Qed.

(** C4, as amended: on a tank that is neither a battery, a reactor nor a
    turret, for a [qty] that is not negative and such that an [int] holds
    [min (ammo_remaining) qty], [ammo_consume] returns that minimum, takes as
    much from the last stack and, when that stack is left without charges,
    empties the contents; with [qty] no less than what remained, nothing
    remains. *)
Theorem ammo_consume_tank (pt : vehicle_part) (qty : Z) (pos : tripoint) :
  tank_role g pt = true ->
  0 <= qty ->
  in_int_range (Z.min (ammo_remaining g pt) qty) ->
  let r := ammo_consume g qty pos pt in
  fst r = Z.min (ammo_remaining g pt) qty
  /\ fst r <= ammo_remaining g pt
  /\ (contents (base pt) = [] -> snd r = pt)
  /\ (forall init liquid, contents (base pt) = init ++ [liquid] ->
      (charges liquid - fst r <> 0 ->
       snd r = set_base (with_contents
                           (init ++ [with_charges (charges liquid - fst r) liquid])
                           (base pt)) pt)
      /\ (charges liquid - fst r = 0 ->
          snd r = set_base (with_contents [] (base pt)) pt))
  /\ (ammo_remaining g pt <= qty -> ammo_remaining g (snd r) = 0).
Proof.
  intros Hrole Hq Hrange r.
  destruct (tank_role_inv g pt Hrole) as (Hb & Hr & Hg & Ht).
  unfold is_tank in Ht.
  set (res := Z.min (ammo_remaining g pt) qty) in *.
  assert (Hfst : fst r = res).
  { unfold r, ammo_consume. rewrite Hb, Hr, Ht. simpl.
    fold res. rewrite (to_int_id res Hrange).
    destruct (contents_empty (base pt)); simpl; [reflexivity |].
    destruct (back (contents (base pt))); [| reflexivity].
    destruct (charges i - res =? 0); reflexivity. }
  assert (Hempty : contents (base pt) = [] -> snd r = pt).
  { intros E. unfold r, ammo_consume, contents_empty. rewrite Hb, Hr, Ht, E.
    reflexivity. }
  assert (Hlast : forall init liquid, contents (base pt) = init ++ [liquid] ->
            snd r = if charges liquid - res =? 0
                    then set_base (with_contents [] (base pt)) pt
                    else set_base (with_contents
                                     (init ++ [with_charges (charges liquid - res) liquid])
                                     (base pt)) pt).
  { intros init liquid E. unfold r, ammo_consume.
    rewrite Hb, Hr, Ht, (contents_empty_app _ _ _ E). simpl.
    fold res. rewrite (to_int_id res Hrange), E, back_app, update_back_app.
    destruct (charges liquid - res =? 0); reflexivity. }
  rewrite Hfst.
  split; [reflexivity |]. split; [unfold res; lia |]. split; [exact Hempty |].
  split.
  - intros init liquid E. rewrite (Hlast init liquid E). split; intros H.
    + apply Z.eqb_neq in H. rewrite H. reflexivity.
    + apply Z.eqb_eq in H. rewrite H. reflexivity.
  - intros Hall.
    destruct (back_cases (contents (base pt))) as [E | (init & liquid & E)].
    + rewrite (Hempty E). rewrite ammo_remaining_tank by exact Hrole.
      rewrite E. reflexivity.
    + rewrite (Hlast init liquid E).
      assert (Hres : res = charges liquid).
      { unfold res. rewrite ammo_remaining_tank in Hall |- * by exact Hrole.
        rewrite E, back_app in Hall |- *. lia. }
      rewrite Hres, Z.sub_diag. simpl.
      rewrite ammo_remaining_tank by (rewrite tank_role_with_contents; exact Hrole).
      reflexivity.
Qed.

End Tank.

Lemma ammo_set_tank_witness :
  let r := ammo_set Sample.w "water_clean" 500 Sample.empty_tank in
  fst r = 500
  /\ contents (base (snd r)) = [item_new "water_clean" 240]
  /\ ammo_remaining Sample.w (snd r) = 240
  /\ ammo_remaining Sample.w (snd r) <= 240.
Proof.
  destruct (ammo_set_tank Sample.w Sample.empty_tank "water_clean" 500)
    as (H1 & H2 & H3 & _ & H5).
  - reflexivity.
  - reflexivity.
  - vm_compute. discriminate.
  - split; vm_compute; discriminate.
  - split; [exact H1 |]. split; [rewrite H2; reflexivity |].
    split; [rewrite H3; [reflexivity | vm_compute; discriminate] |].
    exact H5.
Defined.

(** C3 fails as stated: asked for 4294967296 charges of clean water, more
    than an [int] holds, [ammo_set] on the empty tank stores the 240 charges
    of the limit and returns 0, not the quantity it was asked for.  For a
    liquid of a stack size beyond [legacy_volume_factor], the stack volume
    that the limit is divided by is zero. *)
Lemma ammo_set_not_as_stated :
  tank_role Sample.w Sample.empty_tank = true
  /\ phase (find_type Sample.w "water_clean") = LIQUID
  /\ fst (ammo_set Sample.w "water_clean" 4294967296 Sample.empty_tank) = 0
  /\ fst (ammo_set Sample.w "water_clean" 4294967296 Sample.empty_tank) <> 4294967296
  /\ contents (base (snd (ammo_set Sample.w "water_clean" 4294967296 Sample.empty_tank)))
     = [item_new "water_clean" 240]
  /\ phase (find_type SampleEdge.w "syrup") = LIQUID
  /\ Z.quot (legacy_volume_factor SampleEdge.w)
            (Z.max (stack_size (find_type SampleEdge.w "syrup")) 1) = 0.
Proof. repeat split; vm_compute; discriminate. Qed.

Lemma ammo_consume_tank_witness :
  let r := ammo_consume Sample.w 7 Sample.origin (Sample.water_tank 5) in
  fst r = 5
  /\ fst r <= ammo_remaining Sample.w (Sample.water_tank 5)
  /\ snd r = Sample.empty_tank
  /\ ammo_remaining Sample.w (snd r) = 0.
Proof.
  destruct (ammo_consume_tank Sample.w (Sample.water_tank 5) 7 Sample.origin)
    as (H1 & H2 & _ & H4 & H5).
  - reflexivity.
  - vm_compute. discriminate.
  - split; vm_compute; discriminate.
  - split; [rewrite H1; reflexivity |]. split; [exact H2 |].
    split; [| apply H5; vm_compute; discriminate].
    destruct (H4 [] (mk_item "water_clean" 5 0 []) eq_refl) as [_ H].
    rewrite H; [reflexivity |]. rewrite H1. reflexivity.
Defined.

(** C4 fails as stated, in two ways.  A gun that is a watertight container,
    and neither a battery nor a reactor, reports the rounds of the gun as
    remaining: consuming all 5 of them takes 5 charges from the 3 of the last
    stack and leaves the 5 rounds; consuming the 3 charges of the stack
    empties the contents and leaves the 5 rounds as well.  And the amount
    consumed is narrowed to an [int]: of the 5000000000 charges of a tank,
    all asked for, 705032704 are reported and taken, and 4294967296
    remain. *)
Lemma ammo_consume_not_as_stated :
  is_watertight_container Sample.w (base Sample.water_cannon) = true
  /\ is_battery Sample.w Sample.water_cannon = false
  /\ is_reactor Sample.w Sample.water_cannon = false
  /\ ammo_remaining Sample.w Sample.water_cannon = 5
  /\ fst (ammo_consume Sample.w 5 Sample.origin Sample.water_cannon) = 5
  /\ contents (base (snd (ammo_consume Sample.w 5 Sample.origin Sample.water_cannon)))
     = [mk_item "water_clean" (-2) 0 []]
  /\ ammo_remaining Sample.w (snd (ammo_consume Sample.w 5 Sample.origin Sample.water_cannon))
     <> 0
  /\ contents (base (snd (ammo_consume Sample.w 3 Sample.origin Sample.water_cannon))) = []
  /\ ammo_remaining Sample.w (snd (ammo_consume Sample.w 3 Sample.origin Sample.water_cannon))
     <> 0
  /\ tank_role Sample.w (Sample.water_tank 5000000000) = true
  /\ Z.min (ammo_remaining Sample.w (Sample.water_tank 5000000000)) 5000000000
     = 5000000000
  /\ fst (ammo_consume Sample.w 5000000000 Sample.origin (Sample.water_tank 5000000000))
     = 705032704
  /\ snd (ammo_consume Sample.w 5000000000 Sample.origin (Sample.water_tank 5000000000))
     = Sample.water_tank 4294967296
  /\ ammo_remaining Sample.w
       (snd (ammo_consume Sample.w 5000000000 Sample.origin (Sample.water_tank 5000000000)))
     <> 0.
Proof. repeat split; vm_compute; discriminate. Qed.

(** ** Ammo of a turret *)

Section Turret.

Variable g : world.


End Turret.


(** ** Energy drawn from the last stack *)

Section Energy.

Variable g : world.

(** Within the range of [int] the cast is the ceiling. *)
Lemma ceil_to_int_in_range (x : Q) :
  in_int_range (Qceiling x) -> ceil_to_int x = Qceiling x.
Proof.
  intros [Hlo Hhi]. unfold ceil_to_int.
  apply Z.leb_le in Hlo. apply Z.leb_le in Hhi. rewrite Hlo, Hhi. reflexivity.
Qed.

(** The charges that [consume_energy] draws for a fuel whose energy per unit
    is not zero, when the ceiling fits an [int]. *)
Lemma charges_to_use_ceiling (energy energy_per_unit : Q) :
  ~ (energy_per_unit == 0)%Q ->
  in_int_range (Qceiling (fdiv g energy energy_per_unit)) ->
  (if Qeq_bool energy_per_unit 0 then int_min
   else ceil_to_int (fdiv g energy energy_per_unit))
  = Qceiling (fdiv g energy energy_per_unit).
Proof.
  intros Hnz Hrange.
  destruct (Qeq_bool energy_per_unit 0) eqn:E.
  - apply Qeq_bool_iff in E. contradiction.
  - apply ceil_to_int_in_range. exact Hrange.
Qed.

(** C6, as amended: with contents, an applicable role and a last stack of the
    requested type that is a fuel of an energy per unit other than zero,
    [consume_energy] needs the ceiling of [energy / energy_per_unit] charges,
    the quotient being the one of [float], as long as an [int] holds that
    ceiling; if the stack has fewer it empties the contents and returns the
    energy of the charges it had, else it takes the needed charges from the
    stack and returns their energy.  Without contents, without an applicable
    role or with a last stack of another type it returns 0 and changes
    nothing. *)
Theorem consume_energy_cases (pt : vehicle_part) (ftype : itype_id) (energy : Q) :
  (forall init fuel_item,
      contents (base pt) = init ++ [fuel_item] ->
      is_battery g pt || is_reactor g pt || is_watertight_container g (base pt) = true ->
      typeId fuel_item = ftype ->
      is_fuel g fuel_item = true ->
      ~ (fuel_energy g fuel_item == 0)%Q ->
      in_int_range (Qceiling (fdiv g energy (fuel_energy g fuel_item))) ->
      let energy_per_unit := fuel_energy g fuel_item in
      let needed := Qceiling (fdiv g energy energy_per_unit) in
      (inject_Z (needed - 1) < fdiv g energy energy_per_unit
       /\ fdiv g energy energy_per_unit <= inject_Z needed)%Q
      /\ (charges fuel_item < needed ->
          consume_energy g ftype energy pt
          = Some (fmul g (to_float g (inject_Z (charges fuel_item))) energy_per_unit,
                  set_base (with_contents [] (base pt)) pt))
      /\ (needed <= charges fuel_item ->
          consume_energy g ftype energy pt
          = Some (fmul g (to_float g (inject_Z needed)) energy_per_unit,
                  set_base (with_contents
                              (init ++ [with_charges (charges fuel_item - needed) fuel_item])
                              (base pt)) pt)))
  /\ (contents (base pt) = []
      \/ is_battery g pt || is_reactor g pt || is_watertight_container g (base pt) = false
      \/ (exists init last_item,
             contents (base pt) = init ++ [last_item] /\ typeId last_item <> ftype) ->
      consume_energy g ftype energy pt = Some (0%Q, pt)).
Proof.
  split.
  - intros init fuel_item E Hrole Hty Hfuel Hnz Hrange energy_per_unit needed.
    assert (Hguard : contents_empty (base pt)
                     || (negb (is_battery g pt) && negb (is_reactor g pt)
                         && negb (is_watertight_container g (base pt))) = false).
    { rewrite (contents_empty_app _ _ _ E). simpl.
      destruct (is_battery g pt), (is_reactor g pt),
        (is_watertight_container g (base pt)); simpl in *; congruence. }
    split; [| split].
    + split; [apply Qceiling_lt | apply Qle_ceiling].
    + intros Hlt. unfold consume_energy.
      rewrite Hguard, E, back_app, Hty, String.eqb_refl, Hfuel. simpl negb. cbv iota.
      rewrite (charges_to_use_ceiling energy _ Hnz Hrange).
      fold energy_per_unit. fold needed.
      apply Z.ltb_lt in Hlt. rewrite Hlt. reflexivity.
    + intros Hle. unfold consume_energy.
      rewrite Hguard, E, back_app, Hty, String.eqb_refl, Hfuel. simpl negb. cbv iota.
      rewrite (charges_to_use_ceiling energy _ Hnz Hrange).
      fold energy_per_unit. fold needed.
      apply Z.ltb_ge in Hle. rewrite Hle, update_back_app. reflexivity.
  - intros [E | [Hrole | (init & last_item & E & Hty)]]; unfold consume_energy.
    + unfold contents_empty. rewrite E. reflexivity.
    + destruct (contents_empty (base pt)); [reflexivity |].
      destruct (is_battery g pt), (is_reactor g pt),
        (is_watertight_container g (base pt)); simpl in *; try discriminate.
      reflexivity.
    + destruct (contents_empty (base pt)
                || (negb (is_battery g pt) && negb (is_reactor g pt)
                    && negb (is_watertight_container g (base pt)))); [reflexivity |].
      rewrite E, back_app. apply String.eqb_neq in Hty. rewrite Hty. reflexivity.
Qed.

End Energy.

Lemma consume_energy_cases_witness :
  consume_energy Sample.w "gasoline" (100 # 1) (Sample.fuel_tank 5)
  = Some (102 # 1, Sample.fuel_tank 2)
  /\ consume_energy Sample.w "gasoline" (1000 # 1) (Sample.fuel_tank 5)
     = Some (170 # 1, Sample.empty_tank)
  /\ consume_energy Sample.w "gasoline" (100 # 1) (Sample.water_tank 5)
     = Some (0%Q, Sample.water_tank 5).
Proof.
  split; [| split].
  - destruct (consume_energy_cases Sample.w (Sample.fuel_tank 5) "gasoline" (100 # 1))
      as [H _].
    destruct (H [] (mk_item "gasoline" 5 0 []) eq_refl eq_refl eq_refl eq_refl)
      as (_ & _ & H3).
    + vm_compute. discriminate.
    + split; vm_compute; discriminate.
    + rewrite H3; [reflexivity |]. vm_compute. discriminate.
  - destruct (consume_energy_cases Sample.w (Sample.fuel_tank 5) "gasoline" (1000 # 1))
      as [H _].
    destruct (H [] (mk_item "gasoline" 5 0 []) eq_refl eq_refl eq_refl eq_refl)
      as (_ & H2 & _).
    + vm_compute. discriminate.
    + split; vm_compute; discriminate.
    + rewrite H2; [reflexivity |]. reflexivity.
  - destruct (consume_energy_cases Sample.w (Sample.water_tank 5) "gasoline" (100 # 1))
      as [_ H].
    apply H. right. right. exists [], (mk_item "water_clean" 5 0 []).
    split; [reflexivity | discriminate].
Defined.

(** C6 fails as stated, in three ways.  For 99999997952 units of energy from
    gasoline of 34 units a charge, the ceiling of the quotient, 2941176411,
    is more than an [int] holds and more than the 5 charges of the tank: the
    cast gives the least [int], the contents are not emptied, the stack grows
    to 2147483653 charges and the energy returned is negative.  A last stack
    of the requested type that is no fuel stops on the assertion.  A fuel of
    no energy per unit has no quotient: the stack grows as well. *)
Lemma consume_energy_not_as_stated :
  Qceiling (fdiv Sample.w (99999997952 # 1) (34 # 1)) = 2941176411
  /\ ~ in_int_range 2941176411
  /\ charges (mk_item "gasoline" 5 0 []) < 2941176411
  /\ consume_energy Sample.w "gasoline" (99999997952 # 1) (Sample.fuel_tank 5)
     = Some ((-73014444032 # 1)%Q, Sample.fuel_tank 2147483653)
  /\ is_watertight_container Sample.w (base (Sample.water_tank 5)) = true
  /\ consume_energy Sample.w "water_clean" (100 # 1) (Sample.water_tank 5) = None
  /\ is_fuel SampleEdge.w (mk_item "ballast" 5 0 []) = true
  /\ consume_energy SampleEdge.w "ballast" (100 # 1) (SampleEdge.ballast_tank 5)
     = Some ((0 # 1)%Q, SampleEdge.ballast_tank 2147483653).
Proof.
  split; [reflexivity |].
  split; [intros [_ H]; vm_compute in H; apply H; reflexivity |].
  repeat split.
Qed.

(** ** Reloading *)

Section Reload.

Variable g : world.

Lemma ammo_current_tank_cases (pt : vehicle_part) :
  tank_role g pt = true ->
  (exists first rest, contents (base pt) = first :: rest
                      /\ ammo_current g pt = typeId first)
  \/ (contents (base pt) = []
      /\ (ammo_current g pt = "null" \/ ammo_current g pt = fuel_type (info g pt))).
Proof.
  intros Hrole. destruct (contents (base pt)) as [| first rest] eqn:E.
  - right. split; [reflexivity |].
    destruct (tank_role_inv g pt Hrole) as (Hb & Hr & Hg & Ht).
    unfold ammo_current, contents_empty. rewrite Hb, Hr, Hg, Ht, E. simpl.
    destruct (is_engine g pt); [| left; reflexivity].
    destruct (negb (fuel_type (info g pt) =? "muscle")%string); auto.
  - left. exists first, rest. split; [reflexivity |].
    apply (ammo_current_tank_front g pt first rest Hrole E).
Qed.

(** C7, as amended: [can_reload] refuses a broken part and a part without
    capacity.  A tank refuses a named candidate that is not a liquid, and any
    candidate, the empty one included, that is not the fuel type of the
    descriptor when there is one; a tank that holds at most one stack refuses
    a named candidate that meets a loaded stack of another type than its own
    and the null type; a candidate that none of these conditions holds for is
    accepted exactly when [ammo_remaining] is below [ammo_capacity]. *)
Theorem can_reload_cases (pt : vehicle_part) (obj : itype_id) :
  (is_broken g pt = true \/ ammo_capacity g pt <= 0 -> can_reload g obj pt = false)
  /\ (tank_role g pt = true ->
      (obj <> "" -> phase (find_type g obj) <> LIQUID -> can_reload g obj pt = false)
      /\ (fuel_pinned_other g pt obj = true -> can_reload g obj pt = false)
      /\ ((List.length (contents (base pt)) <= 1)%nat ->
          obj <> "" -> other_liquid_held pt obj = true -> can_reload g obj pt = false)
      /\ (is_broken g pt = false -> 0 < ammo_capacity g pt ->
          (obj <> "" ->
           phase (find_type g obj) = LIQUID /\ other_liquid_held pt obj = false) ->
          fuel_pinned_other g pt obj = false ->
          can_reload g obj pt = (ammo_remaining g pt <? ammo_capacity g pt))).
Proof.
  split.
  - intros [H | H]; unfold can_reload.
    + rewrite H. reflexivity.
    + apply Z.leb_le in H. rewrite H, orb_true_r. reflexivity.
  - intros Hrole.
    destruct (tank_role_inv g pt Hrole) as (Hb & Hr & Hg & Ht).
    unfold can_reload. rewrite Hr, Ht.
    destruct (is_broken g pt || (ammo_capacity g pt <=? 0)) eqn:Hguard.
    { split; [reflexivity |]. split; [reflexivity |].
      split; [reflexivity |].
      intros Hbr Hcap. apply Z.leb_gt in Hcap. rewrite Hbr, Hcap in Hguard.
      discriminate. }
    split; [| split; [| split]].
    + intros Hobj Hph. apply String.eqb_neq in Hobj. rewrite Hobj. simpl.
      destruct (phase (find_type g obj)); simpl; congruence.
    + intros Hpin. unfold fuel_pinned_other in Hpin.
      destruct (negb (obj =? "")%string
                && negb (phase_eqb (phase (find_type g obj)) LIQUID)); [reflexivity |].
      destruct (negb (obj =? "")%string
                && (negb (ammo_current g pt =? "null")%string
                    && negb (ammo_current g pt =? obj)%string)); [reflexivity |].
      rewrite Hpin. reflexivity.
    + intros Hlen Hobj Hother. apply String.eqb_neq in Hobj. rewrite Hobj. simpl.
      destruct (negb (phase_eqb (phase (find_type g obj)) LIQUID)); [reflexivity |].
      unfold other_liquid_held in Hother.
      destruct (contents (base pt)) as [| first rest] eqn:E; [discriminate |].
      destruct rest as [| second rest]; [| simpl in Hlen; lia].
      rewrite (ammo_current_tank_front g pt first [] Hrole E).
      simpl in Hother. rewrite orb_false_r in Hother. rewrite Hother. reflexivity.
    + intros _ _ Hpass Hpin. unfold fuel_pinned_other in Hpin.
      destruct (String.eqb_spec obj "") as [Eobj | Nobj].
      { simpl. rewrite Hpin. reflexivity. }
      destruct (Hpass Nobj) as [Hph Hother]. rewrite Hph. simpl.
      assert (Hmix : negb (ammo_current g pt =? "null")%string
                     && negb (ammo_current g pt =? obj)%string = false).
      { destruct (ammo_current_tank_cases pt Hrole)
          as [(first & rest & E & Hcur) | (E & [Hcur | Hcur])].
        - unfold other_liquid_held in Hother. rewrite E in Hother.
          simpl in Hother. apply orb_false_iff in Hother as [Hother _].
          rewrite Hcur. exact Hother.
        - rewrite Hcur. reflexivity.
        - rewrite Hcur. exact Hpin. }
      rewrite Hmix, Hpin. reflexivity.
Qed.

End Reload.

Lemma can_reload_cases_witness :
  can_reload Sample.w "gasoline" (Sample.water_tank 5) = false
  /\ can_reload Sample.w "metal_tank" (Sample.water_tank 5) = false
  /\ can_reload SampleEdge.w "" (SampleEdge.gas_tank 5) = false
  /\ can_reload Sample.w "water_clean" (Sample.water_tank 5)
     = (ammo_remaining Sample.w (Sample.water_tank 5)
        <? ammo_capacity Sample.w (Sample.water_tank 5))
  /\ can_reload Sample.w "" (Sample.water_tank 5)
     = (ammo_remaining Sample.w (Sample.water_tank 5)
        <? ammo_capacity Sample.w (Sample.water_tank 5))
  /\ can_reload Sample.w "water_clean" (Sample.worn_seat) = false.
Proof.
  split; [| split; [| split; [| split; [| split]]]].
  - destruct (can_reload_cases Sample.w (Sample.water_tank 5) "gasoline") as [_ H].
    destruct (H eq_refl) as (_ & _ & H3 & _).
    apply H3; [simpl; lia | discriminate | reflexivity].
  - destruct (can_reload_cases Sample.w (Sample.water_tank 5) "metal_tank") as [_ H].
    destruct (H eq_refl) as (H1 & _).
    apply H1; [discriminate | vm_compute; discriminate].
  - destruct (can_reload_cases SampleEdge.w (SampleEdge.gas_tank 5) "") as [_ H].
    destruct (H eq_refl) as (_ & H2 & _).
    apply H2. reflexivity.
  - destruct (can_reload_cases Sample.w (Sample.water_tank 5) "water_clean") as [_ H].
    destruct (H eq_refl) as (_ & _ & _ & H4).
    apply H4; [reflexivity | reflexivity | intros _; split; reflexivity | reflexivity].
  - destruct (can_reload_cases Sample.w (Sample.water_tank 5) "") as [_ H].
    destruct (H eq_refl) as (_ & _ & _ & H4).
    apply H4; [reflexivity | reflexivity | intros N; contradiction N; reflexivity
              | reflexivity].
  - destruct (can_reload_cases Sample.w Sample.worn_seat "water_clean") as [H _].
    apply H. right. vm_compute. discriminate.
Defined.

(** C7 fails as stated.  A tank whose descriptor names gasoline, with five
    charges of it and room for 240, refuses the empty candidate, which is no
    concrete candidate: the clause that remains does not hold for it.  The
    tank of gasoline and clean water accepts gasoline, though a liquid of
    another type is loaded: only the first stack is compared. *)
Lemma can_reload_not_as_stated :
  tank_role SampleEdge.w (SampleEdge.gas_tank 5) = true
  /\ ammo_remaining SampleEdge.w (SampleEdge.gas_tank 5) = 5
  /\ ammo_capacity SampleEdge.w (SampleEdge.gas_tank 5) = 240
  /\ can_reload SampleEdge.w "" (SampleEdge.gas_tank 5) = false
  /\ tank_role Sample.w Sample.mixed_tank = true
  /\ phase (find_type Sample.w "gasoline") = LIQUID
  /\ In (mk_item "water_clean" 5 0 []) (contents (base Sample.mixed_tank))
  /\ other_liquid_held Sample.mixed_tank "gasoline" = true
  /\ can_reload Sample.w "gasoline" Sample.mixed_tank = true.
Proof.
  repeat split; try reflexivity.
  right. left. reflexivity.
Qed.

(** ** Crew and seats *)

Section Crew.

Variable g : world.

Lemma store_part_same (i : nat) (x pt : vehicle_part) (l : list vehicle_part) :
  nth_error l i = Some pt -> nth_error (store_part i x l) i = Some x.
Proof.
  revert i. induction l as [| e tl IH]; intros [| i] H; simpl in *;
    try discriminate; auto.
Qed.

Lemma store_part_other (i j : nat) (x : vehicle_part) (l : list vehicle_part) :
  j <> i -> nth_error (store_part i x l) j = nth_error l j.
Proof.
  revert i j. induction l as [| e tl IH]; intros [| i] [| j] H; simpl;
    try reflexivity; try contradiction.
  apply IH. lia.
Qed.

Lemma unseat_others_nth (who : npc) (skip j0 k : nat) (l : list vehicle_part) :
  nth_error (unseat_others g who skip j0 l) k
  = option_map (fun e => if Nat.eqb (j0 + k) skip then e else unseat_if_held g who e)
               (nth_error l k).
Proof.
  revert j0 k. induction l as [| e tl IH]; intros j0 [| k]; simpl; try reflexivity.
  - rewrite Nat.add_0_r. reflexivity.
  - rewrite IH. replace (S j0 + k)%nat with (j0 + S k)%nat by lia. reflexivity.
Qed.

Lemma crew_unset (e : vehicle_part) : crew g (unset_crew e) = None.
Proof. unfold crew, unset_crew. simpl. rewrite orb_true_r. reflexivity. Qed.

Lemma unseat_if_held_cases (who : npc) (e : vehicle_part) :
  unseat_if_held g who e = if is_seat g e && crew_is g who e then unset_crew e else e.
Proof.
  unfold unseat_if_held, crew_is. destruct (is_seat g e); [| reflexivity].
  destruct (crew g e) as [n |]; reflexivity.
Qed.

Lemma set_crew_true (who : npc) (pt : vehicle_part) :
  fst (set_crew g who pt) = true ->
  set_crew g who pt = (true, with_crew_id (getID who) pt)
  /\ is_friend who = true /\ is_broken g pt = false.
Proof.
  unfold set_crew.
  destruct (is_dead_state who), (is_friend who); simpl; try discriminate.
  destruct (is_broken g pt); simpl; try discriminate.
  destruct (negb (is_seat g pt) && negb (is_turret g pt)); simpl; try discriminate.
  auto.
Qed.

Lemma assign_seat_true (i : nat) (who : npc) (v v1 : vehicle) :
  assign_seat g i who v = (true, v1) ->
  exists pt, nth_error (parts v) i = Some pt /\ is_seat g pt = true
             /\ fst (set_crew g who pt) = true
             /\ v1 = {| parts := unseat_others g who i 0
                                   (store_part i (with_crew_id (getID who) pt) (parts v)) |}.
Proof.
  unfold assign_seat. destruct (nth_error (parts v) i) as [pt |]; [| discriminate].
  destruct (is_seat g pt) eqn:Hs; simpl; [| discriminate].
  destruct (fst (set_crew g who pt)) eqn:E; simpl; [| discriminate].
  intros H. exists pt. destruct (set_crew_true who pt E) as (Es & _).
  rewrite Es in H. simpl in H. inversion H. auto.
Qed.

(** C8: [assign_seat] refuses, and changes nothing, when the part is not a
    seat or [set_crew] fails.  When it succeeds the part holds the NPC, every
    other seat whose crew was that NPC is unassigned and the remaining parts
    are as they were, so no other seat has the NPC as its crew; and after a
    second successful assignment of the NPC to another seat, the first seat
    has no crew and the second has the NPC. *)
Theorem assign_seat_single_seat (v : vehicle) (i : nat) (who : npc) (pt : vehicle_part) :
  nth_error (parts v) i = Some pt ->
  (is_seat g pt = false \/ fst (set_crew g who pt) = false ->
   assign_seat g i who v = (false, v))
  /\ (is_seat g pt = true -> fst (set_crew g who pt) = true ->
      exists v1,
        assign_seat g i who v = (true, v1)
        /\ nth_error (parts v1) i = Some (with_crew_id (getID who) pt)
        /\ (forall j e, j <> i -> nth_error (parts v) j = Some e ->
            (is_seat g e = true -> crew_is g who e = true ->
             nth_error (parts v1) j = Some (unset_crew e))
            /\ (is_seat g e = false \/ crew_is g who e = false ->
                nth_error (parts v1) j = Some e))
        /\ (forall j e1, j <> i -> nth_error (parts v1) j = Some e1 ->
            is_seat g e1 = true -> crew_is g who e1 = false)
        /\ (forall k v2, k <> i -> assign_seat g k who v1 = (true, v2) ->
            (registry_by_id g ->
             exists a, nth_error (parts v2) i = Some a /\ crew g a = None)
            /\ (registered g who ->
                exists b, nth_error (parts v2) k = Some b /\ crew g b = Some who))).
Proof.
  intros Hpt. split.
  - intros [H | H]; unfold assign_seat; rewrite Hpt.
    + rewrite H. reflexivity.
    + destruct (is_seat g pt); simpl; [| reflexivity]. rewrite H. reflexivity.
  - intros Hseat Hset. destruct (set_crew_true who pt Hset) as (Es & Hfriend & Hbroken).
    set (A := with_crew_id (getID who) pt).
    exists {| parts := unseat_others g who i 0 (store_part i A (parts v)) |}.
    assert (Hother : forall j e, j <> i -> nth_error (parts v) j = Some e ->
              nth_error (unseat_others g who i 0 (store_part i A (parts v))) j
              = Some (unseat_if_held g who e)).
    { intros j e Hj He. rewrite unseat_others_nth, store_part_other, He by exact Hj.
      simpl. apply Nat.eqb_neq in Hj. rewrite Hj. reflexivity. }
    assert (Hself : nth_error (unseat_others g who i 0 (store_part i A (parts v))) i
                    = Some A).
    { rewrite unseat_others_nth, (store_part_same i A pt _ Hpt). simpl.
      rewrite Nat.eqb_refl. reflexivity. }
    split; [| split; [| split; [| split]]].
    + unfold assign_seat. rewrite Hpt, Hseat, Es. reflexivity.
    + exact Hself.
    + intros j e Hj He. simpl. rewrite (Hother j e Hj He), unseat_if_held_cases.
      split.
      * intros H1 H2. rewrite H1, H2. reflexivity.
      * intros [H | H]; rewrite H; [| rewrite andb_false_r]; reflexivity.
    + intros j e1 Hj He1 Hs. simpl in He1.
      rewrite unseat_others_nth, store_part_other in He1 by exact Hj.
      destruct (nth_error (parts v) j) as [e |]; [| discriminate].
      simpl in He1. apply Nat.eqb_neq in Hj. rewrite Hj in He1.
      inversion He1 as [He]. rewrite unseat_if_held_cases.
      destruct (is_seat g e && crew_is g who e) eqn:E.
      * unfold crew_is. rewrite crew_unset. reflexivity.
      * rewrite unseat_if_held_cases, E in He. subst e1.
        rewrite Hs in E. exact E.
    + intros k v2 Hk H2. simpl in H2.
      destruct (assign_seat_true k who _ v2 H2) as (pk & Hpk & Hsk & Hsetk & ->).
      simpl in Hpk. simpl.
      destruct (set_crew_true who pk Hsetk) as (_ & _ & Hbk).
      split.
      * intros Hreg. exists (unseat_if_held g who A). split.
        -- rewrite unseat_others_nth, store_part_other by congruence.
           rewrite Hself. simpl.
           assert (Hik : Nat.eqb i k = false) by (apply Nat.eqb_neq; congruence).
           rewrite Hik. reflexivity.
        -- unfold unseat_if_held.
           change (is_seat g A) with (is_seat g pt). rewrite Hseat.
           destruct (crew g A) as [n |] eqn:Hc; [| exact Hc].
           assert (Hn : getID n = getID who).
           { unfold crew in Hc.
             destruct (is_broken g A || (crew_id A <? 0)); [discriminate |].
             destruct (critter_by_id g (crew_id A)) as [m |] eqn:Hm; [| discriminate].
             destruct (is_friend m); [| discriminate].
             inversion Hc; subst m. apply (Hreg _ _ Hm). }
           apply Z.eqb_eq in Hn. rewrite Hn. apply crew_unset.
      * intros [Hid Hwho]. exists (with_crew_id (getID who) pk). split.
        -- rewrite unseat_others_nth, (store_part_same k _ pk _ Hpk). simpl.
           rewrite Nat.eqb_refl. reflexivity.
        -- unfold crew. simpl crew_id.
           change (is_broken g (with_crew_id (getID who) pk)) with (is_broken g pk).
           rewrite Hbk. apply Z.ltb_ge in Hid. rewrite Hid. simpl.
           rewrite Hwho, Hfriend. reflexivity.
Qed.

End Crew.

Lemma sample_registry_by_id : registry_by_id Sample.w.
Proof.
  intros i n. simpl. unfold Sample.npcs.
  destruct (i =? 3) eqn:E; [| discriminate].
  intros H. inversion H. apply Z.eqb_eq in E. rewrite E. reflexivity.
Defined.

Lemma assign_seat_single_seat_witness :
  let v1 := snd (assign_seat Sample.w 0 Sample.alice Sample.car) in
  let v2 := snd (assign_seat Sample.w 2 Sample.alice v1) in
  assign_seat Sample.w 1 Sample.alice Sample.car = (false, Sample.car)
  /\ fst (assign_seat Sample.w 0 Sample.alice Sample.car) = true
  /\ fst (assign_seat Sample.w 2 Sample.alice v1) = true
  /\ (exists a, nth_error (parts v2) 0 = Some a /\ crew Sample.w a = None)
  /\ (exists b, nth_error (parts v2) 2 = Some b /\ crew Sample.w b = Some Sample.alice).
Proof.
  intros v1 v2. split.
  - destruct (assign_seat_single_seat Sample.w Sample.car 1 Sample.alice Sample.empty_tank
                eq_refl) as [H _].
    apply H. left. reflexivity.
  - destruct (assign_seat_single_seat Sample.w Sample.car 0 Sample.alice Sample.seat
                eq_refl) as [_ H].
    destruct (H eq_refl eq_refl) as (u & Hu & _ & _ & _ & Hnext).
    assert (E : u = v1) by (unfold v1; rewrite Hu; reflexivity).
    assert (H2 : assign_seat Sample.w 2 Sample.alice u = (true, v2))
      by (rewrite E; reflexivity).
    destruct (Hnext 2%nat v2 ltac:(discriminate) H2) as [Ha Hb].
    split; [reflexivity |]. split; [reflexivity |].
    split.
    + apply Ha. exact sample_registry_by_id.
    + apply Hb. split; [vm_compute; discriminate | reflexivity].
Defined.

(** * Further properties of the methods *)

(** ** Consuming from a tank *)

Section TankMore.

Variable g : world.

(** What [ammo_consume] does to a tank, case by case. *)
Lemma consume_from_tank (pt : vehicle_part) (qty : Z) (pos : tripoint) :
  tank_role g pt = true ->
  in_int_range (Z.min (ammo_remaining g pt) qty) ->
  let res := Z.min (ammo_remaining g pt) qty in
  (contents (base pt) = [] -> ammo_consume g qty pos pt = (res, pt))
  /\ (forall init liquid, contents (base pt) = init ++ [liquid] ->
      ammo_consume g qty pos pt
      = (res, if charges liquid - res =? 0
              then set_base (with_contents [] (base pt)) pt
              else set_base (with_contents
                               (init ++ [with_charges (charges liquid - res) liquid])
                               (base pt)) pt)).
Proof.
  intros Hrole Hrange res.
  destruct (tank_role_inv g pt Hrole) as (Hb & Hr & Hg & Ht). unfold is_tank in Ht.
  split.
  - intros E. unfold ammo_consume, contents_empty. rewrite Hb, Hr, Ht, E. simpl.
    fold res. rewrite (to_int_id res Hrange). reflexivity.
  - intros init liquid E. unfold ammo_consume.
    rewrite Hb, Hr, Ht, (contents_empty_app _ _ _ E). simpl.
    fold res. rewrite (to_int_id res Hrange), E, back_app, update_back_app.
    destruct (charges liquid - res =? 0); reflexivity.
Qed.

Lemma ammo_remaining_tank_app (pt : vehicle_part) (init : list item) (x : item) :
  tank_role g pt = true ->
  ammo_remaining g (set_base (with_contents (init ++ [x]) (base pt)) pt) = charges x.
Proof.
  intros Hrole.
  rewrite ammo_remaining_tank by (rewrite tank_role_with_contents; exact Hrole).
  simpl. rewrite back_app. reflexivity.
Qed.

Lemma ammo_remaining_tank_nil (pt : vehicle_part) :
  tank_role g pt = true ->
  ammo_remaining g (set_base (with_contents [] (base pt)) pt) = 0.
Proof.
  intros Hrole.
  rewrite ammo_remaining_tank by (rewrite tank_role_with_contents; exact Hrole).
  reflexivity.
Qed.

(** X1: for a request that is not negative, what a tank gives and what it
    keeps add up to what it held; with a stock that is not negative, neither
    is negative. *)
Theorem ammo_consume_conserves (pt : vehicle_part) (qty : Z) (pos : tripoint) :
  tank_role g pt = true ->
  0 <= qty ->
  in_int_range (Z.min (ammo_remaining g pt) qty) ->
  let r := ammo_consume g qty pos pt in
  fst r + ammo_remaining g (snd r) = ammo_remaining g pt
  /\ (0 <= ammo_remaining g pt ->
      0 <= fst r /\ 0 <= ammo_remaining g (snd r) <= ammo_remaining g pt).
Proof.
  intros Hrole Hq Hrange r.
  destruct (consume_from_tank pt qty pos Hrole Hrange) as [Hnil Happ].
  assert (Hsum : fst r + ammo_remaining g (snd r) = ammo_remaining g pt
                 /\ fst r = Z.min (ammo_remaining g pt) qty).
  { destruct (back_cases (contents (base pt))) as [E | (init & liquid & E)].
    - unfold r. rewrite (Hnil E). simpl fst. simpl snd. split; [| reflexivity].
      assert (R0 : ammo_remaining g pt = 0)
        by (rewrite (ammo_remaining_tank g pt Hrole), E; reflexivity).
      rewrite R0. lia.
    - unfold r. rewrite (Happ init liquid E). simpl fst. simpl snd.
      assert (Hrem : ammo_remaining g pt = charges liquid).
      { rewrite (ammo_remaining_tank g pt Hrole), E, back_app. reflexivity. }
      destruct (charges liquid - Z.min (ammo_remaining g pt) qty =? 0) eqn:Ez.
      + apply Z.eqb_eq in Ez. rewrite (ammo_remaining_tank_nil pt Hrole). split; lia.
      + rewrite (ammo_remaining_tank_app pt _ _ Hrole). simpl. split; lia. }
  destruct Hsum as [Hsum Hfst]. split; [exact Hsum |]. intros Hrem. lia.
Qed.


(** X3: a part that is no turret, battery or reactor, and is no tank or is
    offered something that is no liquid, refuses [ammo_set] with -1 and is
    left as it was. *)
Theorem ammo_set_refused (pt : vehicle_part) (ammo : itype_id) (qty : Z) :
  is_turret g pt = false -> is_battery g pt = false -> is_reactor g pt = false ->
  is_tank g pt = false \/ phase (find_type g ammo) <> LIQUID ->
  ammo_set g ammo qty pt = (-1, pt).
Proof.
  intros Hg Hb Hr H. unfold ammo_set. rewrite Hg, Hb, Hr. simpl.
  destruct H as [H | H].
  - rewrite H. reflexivity.
  - destruct (phase (find_type g ammo)); try congruence;
      rewrite andb_false_r; reflexivity.
Qed.


(** X5: [ammo_unset] leaves a tank empty, whatever it held, and a second
    call changes nothing; a part that is no battery, reactor, turret or tank
    is left as it was. *)
Theorem ammo_unset_tank (pt : vehicle_part) :
  (tank_role g pt = true ->
   contents (base (ammo_unset g pt)) = []
   /\ ammo_remaining g (ammo_unset g pt) = 0
   /\ ammo_unset g (ammo_unset g pt) = ammo_unset g pt
   /\ forall pos qty, in_int_range (Z.min 0 qty) ->
        ammo_consume g qty pos (ammo_unset g pt) = (Z.min 0 qty, ammo_unset g pt))
  /\ (is_battery g pt = false -> is_reactor g pt = false -> is_turret g pt = false ->
      is_tank g pt = false -> ammo_unset g pt = pt).
Proof.
  split.
  - intros Hrole. destruct (tank_role_inv g pt Hrole) as (Hb & Hr & Hg & Ht).
    assert (E : ammo_unset g pt = set_base (with_contents [] (base pt)) pt)
      by (unfold ammo_unset; rewrite Hb, Hr, Hg, Ht; reflexivity).
    rewrite E. split; [reflexivity |].
    split; [apply (ammo_remaining_tank_nil pt Hrole) |].
    split.
    + unfold ammo_unset.
      change (is_battery g (set_base (with_contents [] (base pt)) pt)) with (is_battery g pt).
      change (is_reactor g (set_base (with_contents [] (base pt)) pt)) with (is_reactor g pt).
      change (is_turret g (set_base (with_contents [] (base pt)) pt)) with (is_turret g pt).
      change (is_tank g (set_base (with_contents [] (base pt)) pt)) with (is_tank g pt).
      rewrite Hb, Hr, Hg, Ht. reflexivity.
    + intros pos qty Hrange.
      set (emptied := set_base (with_contents [] (base pt)) pt).
      assert (Hrole' : tank_role g emptied = true) by exact Hrole.
      assert (R0 : ammo_remaining g emptied = 0) by apply (ammo_remaining_tank_nil pt Hrole).
      assert (Hr' : in_int_range (Z.min (ammo_remaining g emptied) qty))
        by (rewrite R0; exact Hrange).
      destruct (consume_from_tank emptied qty pos Hrole' Hr') as [Hnil _].
      rewrite (Hnil eq_refl), R0. reflexivity.
  - intros Hb Hr Hg Ht. unfold ammo_unset. rewrite Hb, Hr, Hg, Ht. reflexivity.
Qed.

(** X6: the capacity of a tank is never negative and never more than the
    capacity of its container in millilitres: the divisor is at least 1. *)
Theorem ammo_capacity_tank_bounds (pt : vehicle_part) :
  tank_role g pt = true ->
  0 <= get_container_capacity g (base pt) ->
  0 <= ammo_capacity g pt <= get_container_capacity g (base pt).
Proof.
  intros Hrole Hcap. rewrite (ammo_capacity_tank g pt Hrole).
  set (v := Z.max (volume (find_type g (ammo_current g pt))) 1).
  assert (Hv : 1 <= v) by (unfold v; lia).
  rewrite Z.quot_div_nonneg by lia.
  split.
  - apply Z.div_pos; lia.
  - apply Z.div_le_upper_bound; [lia |]. nia.
Qed.

End TankMore.

Lemma ammo_consume_conserves_witness :
  let r := ammo_consume Sample.w 3 Sample.origin (Sample.water_tank 5) in
  fst r + ammo_remaining Sample.w (snd r) = 5
  /\ 0 <= fst r /\ 0 <= ammo_remaining Sample.w (snd r) <= 5.
Proof.
  destruct (ammo_consume_conserves Sample.w (Sample.water_tank 5) 3 Sample.origin)
    as [H1 H2].
  - reflexivity.
  - vm_compute. discriminate.
  - split; vm_compute; discriminate.
  - split; [exact H1 |]. apply H2; vm_compute; discriminate.
Defined.


Lemma ammo_set_refused_witness :
  ammo_set Sample.w "metal_tank" 10 (Sample.water_tank 5) = (-1, Sample.water_tank 5)
  /\ ammo_set Sample.w "water_clean" 10 Sample.seat = (-1, Sample.seat).
Proof.
  split.
  - apply (ammo_set_refused Sample.w (Sample.water_tank 5) "metal_tank" 10);
      try reflexivity. right. vm_compute. discriminate.
  - apply (ammo_set_refused Sample.w Sample.seat "water_clean" 10);
      try reflexivity. left. reflexivity.
Defined.


Lemma ammo_unset_tank_witness :
  contents (base (ammo_unset Sample.w (Sample.water_tank 5))) = []
  /\ ammo_remaining Sample.w (ammo_unset Sample.w (Sample.water_tank 5)) = 0
  /\ ammo_unset Sample.w Sample.seat = Sample.seat.
Proof.
  destruct (ammo_unset_tank Sample.w (Sample.water_tank 5)) as [H _].
  destruct (H eq_refl) as (H1 & H2 & _).
  destruct (ammo_unset_tank Sample.w Sample.seat) as [_ H'].
  split; [exact H1 |]. split; [exact H2 |]. apply H'; reflexivity.
Defined.

Lemma ammo_capacity_tank_bounds_witness :
  0 <= ammo_capacity Sample.w (Sample.water_tank 5) <= 60000.
Proof.
  apply (ammo_capacity_tank_bounds Sample.w (Sample.water_tank 5)).
  - reflexivity.
  - vm_compute. discriminate.
Defined.

(** ** Drawing energy *)

Section EnergyMore.

Variable g : world.

(** X7: [consume_energy] stops on its assertion exactly when it is about to
    draw from a last stack of the requested type that is no fuel; in every
    other case it returns. *)
Theorem consume_energy_asserts (pt : vehicle_part) (ftype : itype_id) (energy : Q) :
  consume_energy g ftype energy pt = None
  <-> exists init fuel_item,
        contents (base pt) = init ++ [fuel_item]
        /\ is_battery g pt || is_reactor g pt || is_watertight_container g (base pt) = true
        /\ typeId fuel_item = ftype
        /\ is_fuel g fuel_item = false.
Proof.
  unfold consume_energy.
  destruct (back_cases (contents (base pt))) as [E | (init & fuel_item & E)].
  - unfold contents_empty. rewrite E. simpl. split; [discriminate |].
    intros (init & x & H & _). destruct init; discriminate.
  - rewrite (contents_empty_app _ _ _ E), E, back_app. simpl orb.
    split.
    + intros H. exists init, fuel_item. split; [reflexivity |].
      destruct (is_battery g pt), (is_reactor g pt),
        (is_watertight_container g (base pt)); simpl in H; try discriminate;
        (destruct (String.eqb_spec (typeId fuel_item) ftype) as [Ety | Ety];
         simpl in H; [| discriminate];
         destruct (is_fuel g fuel_item); simpl in H;
         [destruct (charges fuel_item <? _) in H; discriminate | auto]).
    + intros (init' & x & H & Hrole & Hty & Hfuel).
      apply app_inj_tail in H as [_ <-].
      assert (Hguard : negb (is_battery g pt) && negb (is_reactor g pt)
                       && negb (is_watertight_container g (base pt)) = false).
      { destruct (is_battery g pt), (is_reactor g pt),
          (is_watertight_container g (base pt)); simpl in *; congruence. }
      rewrite Hguard, Hty, String.eqb_refl, Hfuel. reflexivity.
Qed.

(** X8: for a fuel of an energy per unit other than zero and an energy whose
    ceiling of [energy / energy_per_unit] an [int] holds, [consume_energy]
    never leaves the stack it draws from with a negative number of charges;
    when it needs exactly the charges the stack has, the stack stays in the
    contents with no charge left, so that a tank with this one stack still
    reports the fuel as its current ammo with nothing remaining, and the next
    [ammo_consume] is what empties it. *)
Theorem consume_energy_drained (pt : vehicle_part) (energy : Q)
  (init : list item) (fuel_item : item) :
  contents (base pt) = init ++ [fuel_item] ->
  is_battery g pt || is_reactor g pt || is_watertight_container g (base pt) = true ->
  is_fuel g fuel_item = true ->
  ~ (fuel_energy g fuel_item == 0)%Q ->
  in_int_range (Qceiling (fdiv g energy (fuel_energy g fuel_item))) ->
  let needed := Qceiling (fdiv g energy (fuel_energy g fuel_item)) in
  exists e pt',
    consume_energy g (typeId fuel_item) energy pt = Some (e, pt')
    /\ (contents (base pt') = []
        \/ exists left, 0 <= left /\ left = charges fuel_item - needed
                        /\ contents (base pt') = init ++ [with_charges left fuel_item])
    /\ (needed = charges fuel_item ->
        contents (base pt') = init ++ [with_charges 0 fuel_item]
        /\ (tank_role g pt = true -> init = [] ->
            ammo_current g pt' = typeId fuel_item
            /\ ammo_remaining g pt' = 0
            /\ forall pos, ammo_consume g 0 pos pt'
                           = (0, set_base (with_contents [] (base pt)) pt))).
Proof.
  intros E Hrole Hfuel Hnz Hrange needed.
  assert (Hguard : contents_empty (base pt)
                   || (negb (is_battery g pt) && negb (is_reactor g pt)
                       && negb (is_watertight_container g (base pt))) = false).
  { rewrite (contents_empty_app _ _ _ E). simpl.
    destruct (is_battery g pt), (is_reactor g pt),
      (is_watertight_container g (base pt)); simpl in *; congruence. }
  unfold consume_energy.
  rewrite Hguard, E, back_app, String.eqb_refl, Hfuel. simpl negb. cbv iota.
  rewrite (charges_to_use_ceiling g energy _ Hnz Hrange).
  fold needed.
  destruct (charges fuel_item <? needed) eqn:Hlt.
  - apply Z.ltb_lt in Hlt. eexists. eexists. split; [reflexivity |].
    split; [left; reflexivity |]. intros Hn. lia.
  - apply Z.ltb_ge in Hlt. eexists. eexists. split; [reflexivity |].
    rewrite update_back_app. simpl base. simpl contents.
    split.
    + right. exists (charges fuel_item - needed). repeat split. lia.
    + intros Hn. rewrite Hn, Z.sub_diag. split; [reflexivity |].
      intros Htank ->. simpl app.
      set (pt' := set_base (with_contents [with_charges 0 fuel_item] (base pt)) pt).
      assert (Htank' : tank_role g pt' = true) by exact Htank.
      split; [| split].
      * apply (ammo_current_tank_front g pt' (with_charges 0 fuel_item) []);
          [exact Htank' | reflexivity].
      * rewrite (ammo_remaining_tank g pt' Htank'). reflexivity.
      * intros pos.
        assert (R0 : ammo_remaining g pt' = 0)
          by (rewrite (ammo_remaining_tank g pt' Htank'); reflexivity).
        assert (Hr : in_int_range (Z.min (ammo_remaining g pt') 0))
          by (rewrite R0; split; vm_compute; discriminate).
        destruct (consume_from_tank g pt' 0 pos Htank' Hr) as [_ Happ].
        rewrite (Happ [] (with_charges 0 fuel_item) eq_refl), R0. reflexivity.
Qed.

End EnergyMore.

Lemma consume_energy_drained_witness :
  exists e pt',
    consume_energy Sample.w "gasoline" (170 # 1) (Sample.fuel_tank 5) = Some (e, pt')
    /\ contents (base pt') = [mk_item "gasoline" 0 0 []]
    /\ ammo_current Sample.w pt' = "gasoline"
    /\ ammo_remaining Sample.w pt' = 0.
Proof.
  destruct (consume_energy_drained Sample.w (Sample.fuel_tank 5) (170 # 1)
              [] (mk_item "gasoline" 5 0 []) eq_refl eq_refl eq_refl)
    as (e & pt' & H1 & _ & H3).
  { vm_compute. discriminate. }
  { split; vm_compute; discriminate. }
  exists e, pt'. destruct (H3 eq_refl) as (Hc & Ht).
  destruct (Ht eq_refl eq_refl) as (Ha & Hr & _).
  repeat split; assumption.
Defined.

(** ** Reloading *)

Section ReloadMore.

Variable g : world.

Lemma can_reload_true_inv (pt : vehicle_part) (obj : itype_id) :
  can_reload g obj pt = true ->
  is_broken g pt = false
  /\ 0 < ammo_capacity g pt
  /\ (is_reactor g pt = true
      \/ (is_tank g pt = true
          /\ ammo_remaining g pt < ammo_capacity g pt
          /\ (obj <> "" -> phase (find_type g obj) = LIQUID)
          /\ (obj <> "" -> ammo_current g pt = "null" \/ ammo_current g pt = obj)
          /\ (fuel_type (info g pt) = fuel_type_none \/ fuel_type (info g pt) = obj))).
Proof.
  unfold can_reload.
  destruct (is_broken g pt) eqn:Hbr; simpl; [discriminate |].
  destruct (ammo_capacity g pt <=? 0) eqn:Hcap; [discriminate |].
  apply Z.leb_gt in Hcap.
  destruct (is_reactor g pt) eqn:Hr.
  { intros _. auto. }
  destruct (is_tank g pt) eqn:Ht; [| discriminate].
  intros H. split; [reflexivity |]. split; [exact Hcap |]. right.
  split; [reflexivity |].
  destruct (String.eqb_spec obj "") as [Eo | Eo]; simpl in H.
  - destruct (String.eqb_spec (fuel_type (info g pt)) fuel_type_none) as [Ef | Ef];
      simpl in H.
    + apply Z.ltb_lt in H. repeat split; try contradiction; auto.
    + destruct (String.eqb_spec (fuel_type (info g pt)) obj) as [Ef' | Ef'];
        simpl in H; [| discriminate].
      apply Z.ltb_lt in H. repeat split; try contradiction; auto.
  - destruct (phase_eqb (phase (find_type g obj)) LIQUID) eqn:Hph; simpl in H;
      [| discriminate].
    assert (Hliq : phase (find_type g obj) = LIQUID)
      by (destruct (phase (find_type g obj)); simpl in Hph; congruence).
    destruct (String.eqb_spec (ammo_current g pt) "null") as [Ec | Ec]; simpl in H.
    + destruct (String.eqb_spec (fuel_type (info g pt)) fuel_type_none) as [Ef | Ef];
        simpl in H.
      * apply Z.ltb_lt in H. repeat split; auto.
      * destruct (String.eqb_spec (fuel_type (info g pt)) obj) as [Ef' | Ef'];
          simpl in H; [| discriminate].
        apply Z.ltb_lt in H. repeat split; auto.
    + destruct (String.eqb_spec (ammo_current g pt) obj) as [Ec' | Ec'];
        simpl in H; [| discriminate].
      destruct (String.eqb_spec (fuel_type (info g pt)) fuel_type_none) as [Ef | Ef];
        simpl in H.
      * apply Z.ltb_lt in H. repeat split; auto.
      * destruct (String.eqb_spec (fuel_type (info g pt)) obj) as [Ef' | Ef'];
          simpl in H; [| discriminate].
        apply Z.ltb_lt in H. repeat split; auto.
Qed.

(** X9: when [can_reload] accepts, the part is not broken and has capacity,
    and is a reactor or else a tank with room left, offered nothing or a
    liquid, whose descriptor names no fuel type or the one offered; a part
    that is neither a reactor nor a tank is never accepted. *)
Theorem can_reload_accepts (pt : vehicle_part) (obj : itype_id) :
  can_reload g obj pt = true ->
  is_broken g pt = false
  /\ 0 < ammo_capacity g pt
  /\ (is_reactor g pt = true
      \/ (is_tank g pt = true
          /\ ammo_remaining g pt < ammo_capacity g pt
          /\ (obj <> "" -> phase (find_type g obj) = LIQUID)
          /\ (obj <> "" -> ammo_current g pt = "null" \/ ammo_current g pt = obj)
          /\ (fuel_type (info g pt) = fuel_type_none \/ fuel_type (info g pt) = obj))).
Proof. apply can_reload_true_inv. Qed.

End ReloadMore.

Lemma can_reload_accepts_witness :
  is_broken Sample.w (Sample.water_tank 5) = false
  /\ ammo_remaining Sample.w (Sample.water_tank 5) < ammo_capacity Sample.w (Sample.water_tank 5)
  /\ phase (find_type Sample.w "water_clean") = LIQUID.
Proof.
  destruct (can_reload_accepts Sample.w (Sample.water_tank 5) "water_clean" eq_refl)
    as (H1 & _ & [H | (_ & H3 & H4 & _)]).
  - discriminate H.
  - split; [exact H1 |]. split; [exact H3 |]. apply H4. discriminate.
Defined.

(** ** Hit points of whole and of broken parts *)

Lemma double_to_int_below_one (x : Q) : (x < 1)%Q -> double_to_int x <= 0.
Proof.
  destruct x as [n d]. unfold double_to_int, Qlt. simpl. intros H.
  destruct (quot_trunc n (Zpos d) ltac:(lia)) as [[B1 B2] B3].
  set (q := Z.quot n (Z.pos d)) in *.
  destruct (Z_le_gt_dec 0 n) as [Hn | Hn].
  - destruct (Z_le_gt_dec q 0) as [Hq | Hq]; [exact Hq |].
    rewrite (Z.abs_eq q) in B1 by lia. rewrite (Z.abs_eq n) in B1 by lia. nia.
  - nia.
Qed.

Section RoundingSigns.

Local Open Scope Q_scope.

Variable fl : Q -> Q.
Variable eps : Q.
Hypothesis fl_ok : forall x, Qabs (fl x - x) <= eps * Qabs x.
Hypothesis eps_le : eps <= 1.

Lemma fl_nonpos (y : Q) : y <= 0 -> fl y <= 0.
Proof.
  intros Hy. pose proof (fl_ok y) as H. rewrite (Qabs_neg y Hy) in H.
  apply Qabs_Qle_condition in H. destruct H as [_ H]. nra.
Qed.

Lemma fl_nonneg (y : Q) : 0 <= y -> 0 <= fl y <= y + eps * y.
Proof.
  intros Hy. pose proof (fl_ok y) as H. rewrite (Qabs_pos y Hy) in H.
  apply Qabs_Qle_condition in H. destruct H as [H1 H2]. split; nra.
Qed.

(** The reading of the hit points of a part whose damage [d] is at least
    the maximal damage [M]. *)
Lemma reading_broken (D M d : Q) :
  1 <= D -> 0 < M -> 11 * eps * D < 1 -> M <= d ->
  fl (D * fl (1 - fl (d / M))) < 1.
Proof.
  intros HD HM He Hd.
  pose proof (eps_nonneg fl eps fl_ok) as E.
  assert (E1 : 11 * eps < 1) by nra.
  set (z := d / M).
  assert (Hz : z * M == d) by (unfold z; field; lra).
  assert (Hz1 : 1 <= z) by nra.
  destruct (fl_nonneg z ltac:(lra)) as [_ Hq'].
  pose proof (fl_ok z) as Hq. rewrite (Qabs_pos z ltac:(lra)) in Hq.
  apply Qabs_Qle_condition in Hq. destruct Hq as [Hq _].
  set (q := fl z) in *.
  assert (Hy : 1 - q <= eps) by nra.
  destruct (Qlt_le_dec 0 (1 - q)) as [Hpos | Hneg].
  - destruct (fl_nonneg (1 - q) ltac:(lra)) as [Hs0 Hs].
    set (s := fl (1 - q)) in *.
    assert (Ht0 : 0 <= D * s) by nra.
    destruct (fl_nonneg (D * s) Ht0) as [_ Hx].
    assert (Hs2 : s <= 2 * eps) by nra.
    assert (Ht : D * s <= 2 * eps * D) by nra.
    nra.
  - pose proof (fl_nonpos (1 - q) Hneg) as Hs.
    set (s := fl (1 - q)) in *.
    assert (Ht : D * s <= 0) by nra.
    pose proof (fl_nonpos (D * s) Ht). lra.
Qed.

End RoundingSigns.

Lemma inject_Z_nonzero (z : Z) : z <> 0 -> ~ (inject_Z z == 0)%Q.
Proof. unfold Qeq, inject_Z. simpl. lia. Qed.

Section HitPointsMore.

Variable g : world.

Lemma round_double_at (x v : Q) :
  (forall a b : Q, a == b -> round_double g a == round_double g b)%Q ->
  (x == v)%Q -> (round_double g v == v)%Q -> (round_double g x == v)%Q.
Proof.
  intros Hp Hx Hv. apply Qeq_trans with (round_double g v); [apply Hp; exact Hx | exact Hv].
Qed.

(** X10: where the rounding leaves 0, 1 and the durability as they are, and
    the maximal damage of the embedded item is not zero, a part without
    damage reads its full durability as hit points, and a part at its
    maximal damage reads 0. *)
Theorem hp_at_the_ends (pt : vehicle_part) :
  (forall a b : Q, a == b -> round_double g a == round_double g b)%Q ->
  (round_double g 0 == 0)%Q ->
  (round_double g 1 == 1)%Q ->
  (round_double g (inject_Z (durability (info g pt)))
   == inject_Z (durability (info g pt)))%Q ->
  max_damage g (base pt) <> 0 ->
  ((item_damage (base pt) == 0)%Q -> hp g pt = durability (info g pt))
  /\ ((item_damage (base pt) == inject_Z (max_damage g (base pt)))%Q -> hp g pt = 0).
Proof.
  intros Hp H0 H1 HD Hmax. split.
  - intros Hd. rewrite hp_reading.
    transitivity (double_to_int (inject_Z (durability (info g pt))));
      [| apply double_to_int_inject].
    apply double_to_int_Qeq.
    apply (round_double_at _ _ Hp); [| exact HD].
    assert (Hq : (round_double g (item_damage (base pt) / inject_Z (max_damage g (base pt)))
                  == 0)%Q).
    { apply (round_double_at _ _ Hp); [| exact H0]. rewrite Hd. unfold Qdiv. ring. }
    assert (Hs : (round_double g
                    (1 - round_double g
                           (item_damage (base pt) / inject_Z (max_damage g (base pt))))
                  == 1)%Q).
    { apply (round_double_at _ _ Hp); [| exact H1]. rewrite Hq. ring. }
    rewrite Hs. ring.
  - intros Hd. pose proof (inject_Z_nonzero _ Hmax) as Hm. rewrite hp_reading.
    transitivity (double_to_int (inject_Z 0)); [| apply double_to_int_inject].
    apply double_to_int_Qeq.
    apply (round_double_at _ _ Hp); [| exact H0].
    assert (Hq : (round_double g (item_damage (base pt) / inject_Z (max_damage g (base pt)))
                  == 1)%Q).
    { apply (round_double_at _ _ Hp); [| exact H1]. rewrite Hd. field. exact Hm. }
    assert (Hs : (round_double g
                    (1 - round_double g
                           (item_damage (base pt) / inject_Z (max_damage g (base pt))))
                  == 0)%Q).
    { apply (round_double_at _ _ Hp); [| exact H0]. rewrite Hq. ring. }
    rewrite Hs. change (inject_Z 0) with 0%Q. ring.
Qed.

(** X11: a broken part has no hit points left: [hp] is at most 0, whatever
    the rounding of the [double] operations does within its relative error
    [eps]. *)
Theorem hp_of_broken (pt : vehicle_part) (eps : Q) :
  (forall x, Qabs (round_double g x - x) <= eps * Qabs x)%Q ->
  0 < durability (info g pt) ->
  (11 * eps * inject_Z (durability (info g pt)) < 1)%Q ->
  0 < max_damage g (base pt) ->
  is_broken g pt = true ->
  hp g pt <= 0.
Proof.
  intros Hfl Hdur Heps Hmax Hbr.
  assert (HD : (1 <= inject_Z (durability (info g pt)))%Q)
    by (rewrite <- (Zle_Qle 1); lia).
  assert (HM : (0 < inject_Z (max_damage g (base pt)))%Q)
    by (rewrite <- (Zlt_Qlt 0); lia).
  unfold is_broken in Hbr. apply Qle_bool_iff in Hbr.
  assert (He : (eps <= 1)%Q).
  { pose proof (eps_nonneg _ _ Hfl). nra. }
  rewrite hp_reading. apply double_to_int_below_one.
  apply (reading_broken _ eps Hfl He); assumption.
Qed.

(** X12: [set_hp] with 0 breaks the part, which then has no crew, accepts
    none and cannot be reloaded; [set_hp] with the full durability leaves a
    part that is not broken. *)
Theorem set_hp_breaks_and_mends (pt : vehicle_part) :
  (durability (info g pt) <> 0 ->
   is_broken g (set_hp g 0 pt) = true
   /\ crew g (set_hp g 0 pt) = None
   /\ (forall who, set_crew g who (set_hp g 0 pt) = (false, set_hp g 0 pt))
   /\ (forall obj, can_reload g obj (set_hp g 0 pt) = false))
  /\ (0 < max_damage g (base pt) ->
      is_broken g (set_hp g (durability (info g pt)) pt) = false).
Proof.
  split.
  - intros Hdur.
    assert (Hbr : is_broken g (set_hp g 0 pt) = true).
    { unfold set_hp. destruct (0 =? durability (info g pt)) eqn:E.
      - apply Z.eqb_eq in E. congruence.
      - simpl. unfold is_broken. apply Qle_bool_iff. apply Qle_refl. }
    split; [exact Hbr |]. split; [| split].
    + unfold crew. rewrite Hbr. reflexivity.
    + intros who. unfold set_crew. rewrite Hbr.
      destruct (is_dead_state who || negb (is_friend who)); reflexivity.
    + intros obj. unfold can_reload. rewrite Hbr. reflexivity.
  - intros Hmax. unfold set_hp. rewrite Z.eqb_refl. unfold is_broken.
    destruct (Qle_bool (inject_Z (max_damage g (base (set_base (set_damage 0 (base pt)) pt))))
                (item_damage (base (set_base (set_damage 0 (base pt)) pt)))) eqn:E;
      [| reflexivity].
    apply Qle_bool_iff in E.
    change (inject_Z (max_damage g (base pt)) <= inject_Z 0)%Q in E.
    rewrite <- Zle_Qle in E. lia.
Qed.

End HitPointsMore.

Lemma sample_rounding_proper (a b : Q) :
  (a == b -> round_double Sample.w a == round_double Sample.w b)%Q.
Proof. intros H. exact H. Defined.

Lemma hp_at_the_ends_witness :
  hp Sample.w Sample.seat = 7
  /\ hp Sample.w (set_hp Sample.w 0 Sample.seat) = 0.
Proof.
  assert (Hmax : forall pt, id pt = "seat" -> typeId (base pt) = "seat" ->
                            max_damage Sample.w (base pt) <> 0).
  { intros pt _ E. unfold max_damage, item_type. rewrite E. vm_compute. discriminate. }
  split.
  - pose proof (hp_at_the_ends Sample.w Sample.seat sample_rounding_proper
                  (Qeq_refl 0) (Qeq_refl 1) (Qeq_refl (inject_Z 7))
                  (Hmax Sample.seat eq_refl eq_refl)) as [H _].
    apply H. reflexivity.
  - pose proof (hp_at_the_ends Sample.w (set_hp Sample.w 0 Sample.seat)
                  sample_rounding_proper
                  (Qeq_refl 0) (Qeq_refl 1) (Qeq_refl (inject_Z 7))
                  (Hmax (set_hp Sample.w 0 Sample.seat) eq_refl eq_refl)) as [_ H].
    apply H. reflexivity.
Defined.

Lemma hp_of_broken_witness :
  hp Sample.w (set_hp Sample.w 0 Sample.seat) <= 0.
Proof.
  apply (hp_of_broken Sample.w (set_hp Sample.w 0 Sample.seat) (1 # 9007199254740992)).
  - exact sample_rounding.
  - reflexivity.
  - reflexivity.
  - reflexivity.
  - reflexivity.
Defined.

Lemma set_hp_breaks_and_mends_witness :
  is_broken Sample.w (set_hp Sample.w 0 Sample.seat) = true
  /\ crew Sample.w (set_hp Sample.w 0 Sample.seat) = None
  /\ is_broken Sample.w (set_hp Sample.w 7 Sample.worn_seat) = false.
Proof.
  destruct (set_hp_breaks_and_mends Sample.w Sample.seat) as [H _].
  destruct H as (H1 & H2 & _); [vm_compute; discriminate |].
  destruct (set_hp_breaks_and_mends Sample.w Sample.worn_seat) as [_ H'].
  split; [exact H1 |]. split; [exact H2 |]. apply H'. reflexivity.
Defined.

(** ** Crew and seats, continued *)

Section CrewMore.

Variable g : world.

(** X13: [set_crew] accepts exactly a living, friendly NPC on a seat or a
    turret that is not broken; when it refuses, the part is left as it was;
    when it accepts an NPC that the registry holds, [crew] reads that NPC
    back, and [unset_crew] then leaves the part without crew. *)
Theorem set_crew_then_crew (pt : vehicle_part) (who : npc) :
  (fst (set_crew g who pt) = true
   <-> is_dead_state who = false /\ is_friend who = true /\ is_broken g pt = false
       /\ (is_seat g pt = true \/ is_turret g pt = true))
  /\ (fst (set_crew g who pt) = false -> snd (set_crew g who pt) = pt)
  /\ (fst (set_crew g who pt) = true -> registered g who ->
      crew g (snd (set_crew g who pt)) = Some who
      /\ crew g (unset_crew (snd (set_crew g who pt))) = None).
Proof.
  split; [| split].
  - unfold set_crew.
    destruct (is_dead_state who), (is_friend who), (is_broken g pt),
      (is_seat g pt), (is_turret g pt); simpl; split;
      try discriminate; try (intros (? & ? & ? & [? | ?]); discriminate); auto.
  - unfold set_crew.
    destruct (is_dead_state who || negb (is_friend who)); [reflexivity |].
    destruct (is_broken g pt || (negb (is_seat g pt) && negb (is_turret g pt)));
      [reflexivity | discriminate].
  - intros Hset [Hid Hreg].
    destruct (set_crew_true g who pt Hset) as (Es & Hfriend & Hbroken).
    rewrite Es. simpl snd. split; [| apply crew_unset].
    unfold crew. simpl crew_id.
    change (is_broken g (with_crew_id (getID who) pt)) with (is_broken g pt).
    rewrite Hbroken. apply Z.ltb_ge in Hid. rewrite Hid. simpl.
    rewrite Hreg, Hfriend. reflexivity.
Qed.

(** X14: [crew] names an NPC only for a part that is not broken, under the
    id the part stores, which is not negative, and only while the registry
    holds that NPC as a friend; a change of the base item's charges or
    contents does not change the answer. *)
Theorem crew_is_validated (pt : vehicle_part) (n : npc) :
  crew g pt = Some n ->
  is_broken g pt = false
  /\ 0 <= crew_id pt
  /\ critter_by_id g (crew_id pt) = Some n
  /\ is_friend n = true
  /\ (forall cs c, crew g (set_base (with_contents cs (with_charges c (base pt))) pt)
                   = Some n).
Proof.
  intros H. pose proof H as H'. unfold crew in H'.
  destruct (is_broken g pt) eqn:Hbr; simpl in H'; [discriminate |].
  destruct (crew_id pt <? 0) eqn:Hid; [discriminate |].
  destruct (critter_by_id g (crew_id pt)) as [m |] eqn:Hm; [| discriminate].
  destruct (is_friend m) eqn:Hf; [| discriminate].
  inversion H'; subst m.
  pose proof (proj1 (Z.ltb_ge _ _) Hid) as Hge.
  split; [reflexivity |]. split; [exact Hge |]. split; [reflexivity |].
  split; [exact Hf |].
  intros cs c. rewrite <- H. reflexivity.
Qed.

Lemma unseat_if_held_idem (who : npc) (e : vehicle_part) :
  unseat_if_held g who (unseat_if_held g who e) = unseat_if_held g who e.
Proof.
  rewrite !unseat_if_held_cases.
  destruct (is_seat g e && crew_is g who e) eqn:E.
  - change (is_seat g (unset_crew e)) with (is_seat g e).
    unfold crew_is at 1. rewrite crew_unset, andb_false_r. reflexivity.
  - rewrite E. reflexivity.
Qed.

Lemma unseat_others_idem (who : npc) (skip j : nat) (l : list vehicle_part) :
  unseat_others g who skip j (unseat_others g who skip j l)
  = unseat_others g who skip j l.
Proof.
  revert j. induction l as [| e tl IH]; intros j; [reflexivity |].
  simpl. rewrite IH. destruct (Nat.eqb j skip); [reflexivity |].
  rewrite unseat_if_held_idem. reflexivity.
Qed.

Lemma store_part_stored (i : nat) (x : vehicle_part) (l : list vehicle_part) :
  nth_error l i = Some x -> store_part i x l = l.
Proof.
  revert i. induction l as [| e tl IH]; intros [| i] H; simpl in *;
    try discriminate.
  - inversion H. reflexivity.
  - rewrite (IH i H). reflexivity.
Qed.

(** X15: assigning the NPC to the seat it was just assigned to changes
    nothing more. *)
Theorem assign_seat_again (i : nat) (who : npc) (v v1 : vehicle) :
  assign_seat g i who v = (true, v1) ->
  assign_seat g i who v1 = (true, v1).
Proof.
  intros H. destruct (assign_seat_true g i who v v1 H) as (pt & Hpt & Hseat & Hset & ->).
  set (A := with_crew_id (getID who) pt).
  set (L := unseat_others g who i 0 (store_part i A (parts v))).
  assert (HA : nth_error L i = Some A).
  { unfold L. rewrite unseat_others_nth, (store_part_same i A pt _ Hpt). simpl.
    rewrite Nat.eqb_refl. reflexivity. }
  destruct (set_crew_true g who pt Hset) as (_ & Hfriend & Hbroken).
  assert (Hset' : set_crew g who A = (true, A)).
  { unfold set_crew.
    change (is_broken g A) with (is_broken g pt).
    change (is_seat g A) with (is_seat g pt).
    rewrite Hbroken, Hseat, Hfriend.
    unfold set_crew in Hset. rewrite Hbroken, Hseat, Hfriend in Hset.
    destruct (is_dead_state who); [discriminate Hset |]. reflexivity. }
  unfold assign_seat. simpl parts. rewrite HA.
  change (is_seat g A) with (is_seat g pt). rewrite Hseat, Hset'. simpl.
  rewrite (store_part_stored i A L HA). unfold L at 1.
  rewrite unseat_others_idem. reflexivity.
Qed.

(** The parts of a vehicle with their crew ids blanked. *)
Lemma store_part_but_crew (i : nat) (pt : vehicle_part) (c : Z) (l : list vehicle_part) :
  nth_error l i = Some pt ->
  map (with_crew_id 0) (store_part i (with_crew_id c pt) l) = map (with_crew_id 0) l.
Proof.
  revert i. induction l as [| e tl IH]; intros [| i] H; simpl in *;
    try discriminate.
  - inversion H. reflexivity.
  - rewrite (IH i H). reflexivity.
Qed.

Lemma unseat_others_but_crew (who : npc) (skip j : nat) (l : list vehicle_part) :
  map (with_crew_id 0) (unseat_others g who skip j l) = map (with_crew_id 0) l.
Proof.
  revert j. induction l as [| e tl IH]; intros j; [reflexivity |].
  simpl. rewrite IH. f_equal.
  destruct (Nat.eqb j skip); [reflexivity |].
  rewrite unseat_if_held_cases.
  destruct (is_seat g e && crew_is g who e); reflexivity.
Qed.

(** X16: whether it succeeds or not, [assign_seat] changes nothing of a
    vehicle but crew ids: the parts are as many, in the same order, with
    the same items, mounts and targets, and no part becomes or stops being
    broken. *)
Theorem assign_seat_only_crew (i : nat) (who : npc) (v : vehicle) :
  map (with_crew_id 0) (parts (snd (assign_seat g i who v)))
  = map (with_crew_id 0) (parts v)
  /\ List.length (parts (snd (assign_seat g i who v))) = List.length (parts v)
  /\ map (is_broken g) (parts (snd (assign_seat g i who v)))
     = map (is_broken g) (parts v).
Proof.
  assert (H : map (with_crew_id 0) (parts (snd (assign_seat g i who v)))
              = map (with_crew_id 0) (parts v)).
  { unfold assign_seat. destruct (nth_error (parts v) i) as [pt |] eqn:Hpt;
      [| reflexivity].
    destruct (is_seat g pt); simpl; [| reflexivity].
    destruct (fst (set_crew g who pt)) eqn:Hset; simpl; [| reflexivity].
    destruct (set_crew_true g who pt Hset) as (Es & _). rewrite Es. simpl snd.
    rewrite unseat_others_but_crew. apply store_part_but_crew. exact Hpt. }
  split; [exact H |]. split.
  - rewrite <- (List.length_map (with_crew_id 0)), H. apply List.length_map.
  - change (map (is_broken g) (parts (snd (assign_seat g i who v))))
      with (map (fun e => is_broken g (with_crew_id 0 e))
              (parts (snd (assign_seat g i who v)))).
    rewrite <- (map_map (with_crew_id 0) (is_broken g)), H, map_map. reflexivity.
Qed.

End CrewMore.

Lemma set_crew_then_crew_witness :
  fst (set_crew Sample.w Sample.alice Sample.seat) = true
  /\ crew Sample.w (snd (set_crew Sample.w Sample.alice Sample.seat)) = Some Sample.alice
  /\ snd (set_crew Sample.w Sample.alice Sample.empty_tank) = Sample.empty_tank.
Proof.
  destruct (set_crew_then_crew Sample.w Sample.seat Sample.alice) as (H1 & _ & H3).
  destruct (set_crew_then_crew Sample.w Sample.empty_tank Sample.alice) as (_ & H2 & _).
  assert (Hok : fst (set_crew Sample.w Sample.alice Sample.seat) = true).
  { apply H1. repeat split. left. reflexivity. }
  split; [exact Hok |]. split.
  - apply H3; [exact Hok |]. split; [vm_compute; discriminate | reflexivity].
  - apply H2. reflexivity.
Defined.

Lemma crew_is_validated_witness :
  is_broken Sample.w (with_crew_id 3 Sample.seat) = false
  /\ is_friend Sample.alice = true.
Proof.
  destruct (crew_is_validated Sample.w (with_crew_id 3 Sample.seat) Sample.alice eq_refl)
    as (H1 & _ & _ & H4 & _).
  split; assumption.
Defined.

Lemma assign_seat_again_witness :
  assign_seat Sample.w 0 Sample.alice (snd (assign_seat Sample.w 0 Sample.alice Sample.car))
  = (true, snd (assign_seat Sample.w 0 Sample.alice Sample.car)).
Proof.
  apply (assign_seat_again Sample.w 0 Sample.alice Sample.car). reflexivity.
Defined.

(** ** Sets and maps of the item *)

Lemma set_count_In (x : string) (s : list string) : set_count x s = true <-> In x s.
Proof.
  unfold set_count. rewrite existsb_exists. split.
  - intros (y & Hy & E). apply String.eqb_eq in E. subst. exact Hy.
  - intros H. exists x. split; [exact H | apply String.eqb_refl].
Qed.

Lemma set_insert_In (x y : string) (s : list string) :
  In y (set_insert x s) <-> y = x \/ In y s.
Proof.
  unfold set_insert. destruct (set_count x s) eqn:E.
  - apply set_count_In in E. split; [auto |]. intros [-> | H]; assumption.
  - simpl. split; intros [H | H]; auto.
Qed.

Lemma set_erase_In (x y : string) (s : list string) :
  In y (set_erase x s) <-> y <> x /\ In y s.
Proof.
  unfold set_erase. rewrite filter_In. split.
  - intros [H E]. split; [| exact H]. apply negb_true_iff, String.eqb_neq in E. congruence.
  - intros [E H]. split; [exact H |]. apply negb_true_iff, String.eqb_neq. congruence.
Qed.

Lemma set_erase_absent (x : string) (s : list string) :
  ~ In x s -> set_erase x s = s.
Proof.
  intros H. unfold set_erase. induction s as [| y tl IH]; [reflexivity |].
  simpl. destruct (String.eqb_spec x y) as [E | E].
  - exfalso. apply H. left. congruence.
  - simpl. rewrite IH; [reflexivity |]. intros Hin. apply H. right. exact Hin.
Qed.

Lemma map_get_set (k v : string) (m : list (string * string)) :
  map_get k (map_set k v m) = Some v.
Proof. unfold map_get, map_set. simpl. rewrite String.eqb_refl. reflexivity. Qed.

Lemma map_get_set_other (k k' v : string) (m : list (string * string)) :
  k' <> k -> map_get k' (map_set k v m) = map_get k' m.
Proof.
  intros H. unfold map_get, map_set. simpl.
  apply String.eqb_neq in H. rewrite H.
  induction m as [| [a b] tl IH]; [reflexivity |].
  simpl. destruct (String.eqb_spec k a) as [E | E]; simpl.
  - subst a. rewrite H. exact IH.
  - destruct (String.eqb k' a); [reflexivity | exact IH].
Qed.

(** ** Installing and removing *)

Section Installing.

Variable g : world.
Variable sv : services.

(** X17: an item that carries no VEHICLE tag and is no cable spool comes
    back from a part as it went in: [properties_to_item] undoes what the
    constructor did to it. *)
Theorem install_then_remove (blank : vehicle_part) (vp : vpart_id) (dx dy : Z)
  (obj : item) (obj_rest : item_rest) :
  ~ In "VEHICLE" (item_tags obj_rest) ->
  item_has_flag sv obj obj_rest "CABLE_SPOOL" = false ->
  let installed := new_part sv blank vp dx dy obj obj_rest in
  In "VEHICLE" (item_tags (snd (fst installed)))
  /\ properties_to_item sv (fst (fst installed)) (snd (fst installed)) = (obj, obj_rest).
Proof.
  intros Hno Hflag installed. split.
  - simpl. apply set_insert_In. left. reflexivity.
  - unfold properties_to_item. simpl.
    assert (E : set_erase "VEHICLE" (set_insert "VEHICLE" (item_tags obj_rest))
                = item_tags obj_rest).
    { unfold set_insert. destruct (set_count "VEHICLE" (item_tags obj_rest)) eqn:Ec.
      - apply set_count_In in Ec. contradiction.
      - simpl. apply set_erase_absent. exact Hno. }
    unfold with_tags. simpl. rewrite E.
    destruct obj_rest as [t f a m]. simpl in *. rewrite Hflag. reflexivity.
Qed.

(** X18: the item that [properties_to_item] hands out never carries the
    VEHICLE tag, is the base item of the part with its damage, charges and
    contents, and keeps the faults; every other tag it had it still has. *)
Theorem removed_item_untagged (pt : vehicle_part) (rest : item_rest) :
  let out := properties_to_item sv pt rest in
  ~ In "VEHICLE" (item_tags (snd out))
  /\ fst out = base pt
  /\ faults (snd out) = faults rest
  /\ (forall t, t <> "VEHICLE" -> In t (item_tags rest) -> In t (item_tags (snd out))).
Proof.
  intros out. unfold out, properties_to_item.
  set (tmp := with_tags (set_erase "VEHICLE" (item_tags rest)) rest).
  assert (Hno : ~ In "VEHICLE" (item_tags tmp)).
  { simpl. intros H. apply set_erase_In in H. destruct H as [H _]. congruence. }
  assert (Hkeep : forall t, t <> "VEHICLE" -> In t (item_tags rest) -> In t (item_tags tmp)).
  { intros t Ht Hin. simpl. apply set_erase_In. auto. }
  destruct (item_has_flag sv (base pt) tmp "CABLE_SPOOL").
  - simpl snd. simpl fst. cbn [item_tags faults].
    destruct (negb (veh_at sv (getlocal sv (fst (target pt))))).
    + repeat split.
      * intros H. apply set_insert_In in H. destruct H as [H | H]; [discriminate | auto].
      * intros t Ht Hin. apply set_insert_In. right. auto.
    + repeat split; auto.
  - repeat split; auto.
Qed.

(** X19: the item of a cable spool leaves the part active, in the state
    "pay_out_cable", with the coordinates of the first end of the cable
    readable as decimal text, and tagged NO_DROP when no vehicle is found at
    that end. *)
Theorem removed_cable (pt : vehicle_part) (rest : item_rest) :
  item_has_flag sv (base pt)
    (with_tags (set_erase "VEHICLE" (item_tags rest)) rest) "CABLE_SPOOL" = true ->
  let out := snd (properties_to_item sv pt rest) in
  active out = true
  /\ map_get "state" (item_vars out) = Some "pay_out_cable"
  /\ map_get "source_x" (item_vars out) = Some (int_text (tx (fst (target pt))))
  /\ map_get "source_y" (item_vars out) = Some (int_text (ty (fst (target pt))))
  /\ map_get "source_z" (item_vars out) = Some (int_text (tz (fst (target pt))))
  /\ (forall k, k <> "state" -> k <> "source_x" -> k <> "source_y" -> k <> "source_z" ->
      map_get k (item_vars out) = map_get k (item_vars rest))
  /\ (veh_at sv (getlocal sv (fst (target pt))) = false -> In "NO_DROP" (item_tags out))
  /\ (veh_at sv (getlocal sv (fst (target pt))) = true ->
      (In "NO_DROP" (item_tags out) <-> In "NO_DROP" (item_tags rest))).
Proof.
  intros Hflag out. unfold out, properties_to_item. rewrite Hflag.
  simpl snd. cbn [active item_vars item_tags].
  split; [reflexivity |]. split; [apply map_get_set |].
  split.
  { rewrite !map_get_set_other by discriminate. apply map_get_set. }
  split.
  { rewrite !map_get_set_other by discriminate. apply map_get_set. }
  split.
  { rewrite !map_get_set_other by discriminate. apply map_get_set. }
  split.
  { intros k H1 H2 H3 H4. rewrite !map_get_set_other by assumption. reflexivity. }
  split.
  - intros Hv. rewrite Hv. simpl. apply set_insert_In. left. reflexivity.
  - intros Hv. rewrite Hv. simpl. rewrite set_erase_In. split.
    + intros [_ H]. exact H.
    + intros H. split; [discriminate | exact H].
Qed.

End Installing.

Lemma install_then_remove_witness :
  properties_to_item SampleRest.sv
    (fst (fst (new_part SampleRest.sv Sample.seat "tank" 2 3
                 (mk_item "metal_tank" 0 0 []) SampleRest.plain)))
    (snd (fst (new_part SampleRest.sv Sample.seat "tank" 2 3
                 (mk_item "metal_tank" 0 0 []) SampleRest.plain)))
  = (mk_item "metal_tank" 0 0 [], SampleRest.plain).
Proof.
  apply (install_then_remove SampleRest.sv Sample.seat "tank" 2 3
           (mk_item "metal_tank" 0 0 []) SampleRest.plain).
  - simpl. intros [H | H]; [discriminate | exact H].
  - reflexivity.
Defined.

Lemma removed_cable_witness :
  let out := snd (properties_to_item SampleRest.sv SampleRest.cable SampleRest.plain) in
  active out = true
  /\ map_get "source_x" (item_vars out) = Some "12"
  /\ map_get "source_y" (item_vars out) = Some "-3"
  /\ In "NO_DROP" (item_tags out).
Proof.
  destruct (removed_cable SampleRest.sv SampleRest.cable SampleRest.plain eq_refl)
    as (H1 & _ & H3 & H4 & _ & _ & H7 & _).
  split; [exact H1 |]. split; [exact H3 |]. split; [exact H4 |].
  apply H7. reflexivity.
Defined.

(** ** Filling, faults, wheels and enabling *)

Section Rest.

Variable g : world.
Variable sv : services.

(** X20: [fill_with] pours exactly when the liquid is neither active nor
    rotten and the part is a tank that [can_reload] accepts for the type of
    the liquid; it never pours into a broken part or one without capacity
    and, unless the part is also a reactor, never into a tank without room
    and never something that is no liquid.  When it refuses, part and
    liquid are left as they were. *)
Theorem fill_with_gate (liquid : item) (liquid_rest : item_rest) (qty : Z)
  (pt : vehicle_part) :
  let r := fill_with g sv liquid liquid_rest qty pt in
  (fst (fst r) = true
   <-> active liquid_rest = false /\ rotten sv liquid liquid_rest = false
       /\ is_tank g pt = true /\ can_reload g (typeId liquid) pt = true)
  /\ (fst (fst r) = false -> r = (false, pt, liquid))
  /\ (fst (fst r) = true ->
      is_broken g pt = false
      /\ 0 < ammo_capacity g pt
      /\ (is_reactor g pt = false ->
          ammo_remaining g pt < ammo_capacity g pt
          /\ (typeId liquid <> "" -> phase (find_type g (typeId liquid)) = LIQUID))).
Proof.
  intros r. unfold r, fill_with.
  destruct (active liquid_rest) eqn:Ha; simpl.
  { split; [| split]; try discriminate; auto. split; [discriminate |].
    intros (H & _). discriminate. }
  destruct (rotten sv liquid liquid_rest) eqn:Hr; simpl.
  { split; [| split]; try discriminate; auto. split; [discriminate |].
    intros (_ & H & _). discriminate. }
  destruct (is_tank g pt) eqn:Ht; simpl.
  2:{ split; [| split]; try discriminate; auto. split; [discriminate |].
      intros (_ & _ & H & _). discriminate. }
  destruct (can_reload g (typeId liquid) pt) eqn:Hc; simpl.
  2:{ split; [| split]; try discriminate; auto. split; [discriminate |].
      intros (_ & _ & _ & H). discriminate. }
  split; [split; auto |]. split; [discriminate |]. intros _.
  destruct (can_reload_true_inv g pt (typeId liquid) Hc) as (Hb & Hcap & [Hre | Htank]).
  - split; [exact Hb |]. split; [exact Hcap |]. intros H. congruence.
  - destruct Htank as (_ & Hroom & Hliq & _ & _). auto.
Qed.

(** X21: [fault_set] refuses a fault that is not among the potential faults
    of the embedded item and leaves the faults as they were; a potential
    fault is added to the faults, which lose nothing; tags, activity and
    variables are not touched, and setting the fault again changes
    nothing. *)
Theorem fault_set_adds (f : fault_id) (pt : vehicle_part) (rest : item_rest) :
  let r := fault_set sv f pt rest in
  (~ In f (faults_potential sv pt) -> r = (false, rest))
  /\ (In f (faults_potential sv pt) ->
      fst r = true
      /\ (forall x, In x (part_faults (snd r)) <-> x = f \/ In x (part_faults rest))
      /\ with_faults (faults rest) (snd r) = with_faults (faults rest) rest
      /\ fault_set sv f pt (snd r) = (true, snd r)).
Proof.
  intros r. unfold r, fault_set. split.
  - intros H. destruct (set_count f (faults_potential sv pt)) eqn:E; [| reflexivity].
    apply set_count_In in E. contradiction.
  - intros H. apply set_count_In in H. rewrite H. simpl.
    split; [reflexivity |]. split; [| split].
    + intros x. unfold part_faults. simpl. apply set_insert_In.
    + reflexivity.
    + f_equal. unfold with_faults. simpl. f_equal.
      unfold set_insert at 1.
      assert (E : set_count f (set_insert f (faults rest)) = true)
        by (apply set_count_In, set_insert_In; left; reflexivity).
      rewrite E. reflexivity.
Qed.

(** X22: as long as faults are set through [fault_set], the faults of a
    part stay among the potential faults of its embedded item, whether a
    call succeeds or not. *)
Theorem fault_set_keeps_potential (f : fault_id) (pt : vehicle_part) (rest : item_rest) :
  (forall x, In x (part_faults rest) -> In x (faults_potential sv pt)) ->
  forall x, In x (part_faults (snd (fault_set sv f pt rest))) ->
            In x (faults_potential sv pt).
Proof.
  intros Hinv x. unfold fault_set.
  destruct (set_count f (faults_potential sv pt)) eqn:E; simpl.
  - unfold part_faults. simpl. intros H. apply set_insert_In in H.
    destruct H as [-> | H]; [apply set_count_In; exact E | apply Hinv; exact H].
  - apply Hinv.
Qed.

(** X23: the area of a wheel is its diameter times its width, and a part
    whose embedded item is no wheel has area, diameter and width 0. *)
Theorem wheel_metrics (pt : vehicle_part) :
  wheel_area sv pt = wheel_diameter sv pt * wheel_width sv pt
  /\ (is_wheel sv (base pt) = false ->
      wheel_area sv pt = 0 /\ wheel_diameter sv pt = 0 /\ wheel_width sv pt = 0).
Proof.
  unfold wheel_area, wheel_diameter, wheel_width.
  destruct (is_wheel sv (base pt)); split; try reflexivity; try discriminate.
  intros _. repeat split.
Qed.

(** X24: asking [can_enable] to alert changes the messages and nothing
    else: the answer is the same; without alert nothing is printed; at most
    one message is printed, and only with a refusal; and whether the part
    is removed or foreign to the vehicle changes the diagnostic only. *)
Theorem can_enable_alert (v : vehicle) (present : bool) (pt : vehicle_part) (alert : bool) :
  fst (fst (can_enable g sv v present pt alert))
  = fst (fst (can_enable g sv v present pt false))
  /\ snd (fst (can_enable g sv v present pt false)) = []
  /\ (List.length (snd (fst (can_enable g sv v present pt alert))) <= 1)%nat
  /\ (snd (fst (can_enable g sv v present pt alert)) <> [] ->
      fst (fst (can_enable g sv v present pt alert)) = false)
  /\ (forall present', fst (can_enable g sv v present' pt alert)
                       = fst (can_enable g sv v present pt alert))
  /\ snd (can_enable g sv v present pt alert) = negb present || removed pt.
Proof.
  unfold can_enable.
  destruct (is_broken g pt); simpl.
  { repeat split; auto. }
  destruct (has_flag "PLANTER" (info g pt) && negb (warm_enough_to_plant sv)); simpl.
  { destruct alert; simpl; repeat split; auto. }
  destruct ((epower sv (id pt) <? 0) && (fuel_left sv v fuel_type_battery true <=? 0));
    simpl.
  { destruct alert; simpl; repeat split; auto. }
  repeat split; auto. intros H. contradiction.
Qed.

(** X25: [can_enable] accepts exactly a part that is not broken, that is no
    planter or finds it warm enough to plant, and that draws no power or
    finds battery power left; a broken part is refused without a message,
    alert or not. *)
Theorem can_enable_accepts (v : vehicle) (present : bool) (pt : vehicle_part)
  (alert : bool) :
  (fst (fst (can_enable g sv v present pt alert)) = true
   <-> is_broken g pt = false
       /\ (has_flag "PLANTER" (info g pt) = true -> warm_enough_to_plant sv = true)
       /\ (epower sv (id pt) < 0 -> 0 < fuel_left sv v fuel_type_battery true))
  /\ (is_broken g pt = true ->
      fst (can_enable g sv v present pt alert) = (false, [])).
Proof.
  unfold can_enable. split.
  - destruct (is_broken g pt); simpl.
    { split; [discriminate | intros (H & _); discriminate]. }
    destruct (has_flag "PLANTER" (info g pt)) eqn:Hp; simpl.
    + destruct (warm_enough_to_plant sv) eqn:Hw; simpl.
      * destruct (epower sv (id pt) <? 0) eqn:He; simpl.
        -- apply Z.ltb_lt in He.
           destruct (fuel_left sv v fuel_type_battery true <=? 0) eqn:Hf; simpl.
           ++ apply Z.leb_le in Hf. split; [discriminate |].
              intros (_ & _ & H). specialize (H He). lia.
           ++ apply Z.leb_gt in Hf. split; auto.
        -- apply Z.ltb_ge in He. split; auto. intros _. repeat split; auto. lia.
      * split; [discriminate |]. intros (_ & H & _). specialize (H eq_refl). discriminate.
    + destruct (epower sv (id pt) <? 0) eqn:He; simpl.
      * apply Z.ltb_lt in He.
        destruct (fuel_left sv v fuel_type_battery true <=? 0) eqn:Hf; simpl.
        -- apply Z.leb_le in Hf. split; [discriminate |].
           intros (_ & _ & H). specialize (H He). lia.
        -- apply Z.leb_gt in Hf. split; auto. intros _. repeat split; auto. discriminate.
      * apply Z.ltb_ge in He. split; auto. intros _. repeat split; auto; [discriminate | lia].
  - intros H. rewrite H. reflexivity.
Qed.

End Rest.

Lemma fill_with_gate_witness :
  fst (fst (fill_with Sample.w SampleRest.sv (mk_item "water_clean" 50 0 [])
              SampleRest.plain 20 Sample.empty_tank)) = true
  /\ fill_with Sample.w SampleRest.sv (mk_item "water_clean" 50 0 [])
       SampleRest.burning 20 Sample.empty_tank
     = (false, Sample.empty_tank, mk_item "water_clean" 50 0 [])
  /\ is_broken Sample.w Sample.empty_tank = false.
Proof.
  destruct (fill_with_gate Sample.w SampleRest.sv (mk_item "water_clean" 50 0 [])
              SampleRest.plain 20 Sample.empty_tank) as (H1 & _ & H3).
  destruct (fill_with_gate Sample.w SampleRest.sv (mk_item "water_clean" 50 0 [])
              SampleRest.burning 20 Sample.empty_tank) as (_ & H2 & _).
  assert (Hok : fst (fst (fill_with Sample.w SampleRest.sv (mk_item "water_clean" 50 0 [])
                            SampleRest.plain 20 Sample.empty_tank)) = true).
  { apply H1. repeat split. }
  split; [exact Hok |]. split; [apply H2; reflexivity |].
  destruct (H3 Hok) as (H & _). exact H.
Defined.

Lemma fault_set_adds_witness :
  fault_set SampleRest.sv "fault_rust" Sample.seat SampleRest.plain
  = (false, SampleRest.plain)
  /\ fst (fault_set SampleRest.sv "fault_belt" Sample.seat SampleRest.plain) = true
  /\ In "fault_belt"
       (part_faults (snd (fault_set SampleRest.sv "fault_belt" Sample.seat SampleRest.plain))).
Proof.
  destruct (fault_set_adds SampleRest.sv "fault_rust" Sample.seat SampleRest.plain)
    as [H1 _].
  destruct (fault_set_adds SampleRest.sv "fault_belt" Sample.seat SampleRest.plain)
    as [_ H2].
  split.
  - apply H1. simpl. intros [H | [H | H]]; [discriminate | discriminate | exact H].
  - destruct H2 as (Ha & Hb & _); [simpl; auto |].
    split; [exact Ha |]. apply Hb. left. reflexivity.
Defined.

Lemma fault_set_keeps_potential_witness :
  In "fault_belt" (faults_potential SampleRest.sv Sample.seat).
Proof.
  apply (fault_set_keeps_potential SampleRest.sv "fault_belt" Sample.seat SampleRest.plain).
  - simpl. intros x H. contradiction.
  - simpl. left. reflexivity.
Defined.

Lemma wheel_metrics_witness :
  wheel_area SampleRest.sv SampleRest.wheel_part = 17 * 9
  /\ wheel_area SampleRest.sv Sample.seat = 0.
Proof.
  destruct (wheel_metrics SampleRest.sv SampleRest.wheel_part) as [H1 _].
  destruct (wheel_metrics SampleRest.sv Sample.seat) as [_ H2].
  split; [rewrite H1; reflexivity |]. destruct (H2 eq_refl) as (H & _). exact H.
Defined.

Lemma can_enable_alert_witness :
  snd (fst (can_enable Sample.w SampleRest.sv Sample.car true SampleRest.lamp true))
  = [InsufficientPower SampleRest.lamp]
  /\ fst (fst (can_enable Sample.w SampleRest.sv Sample.car true SampleRest.lamp true))
     = false.
Proof.
  destruct (can_enable_alert Sample.w SampleRest.sv Sample.car true SampleRest.lamp true)
    as (_ & _ & _ & H4 & _).
  split; [reflexivity |]. apply H4. discriminate.
Defined.

Lemma can_enable_accepts_witness :
  fst (fst (can_enable Sample.w SampleRest.sv Sample.car true Sample.seat true)) = true
  /\ fst (can_enable Sample.w SampleRest.sv Sample.car true
            (set_hp Sample.w 0 Sample.seat) true) = (false, []).
Proof.
  destruct (can_enable_accepts Sample.w SampleRest.sv Sample.car true Sample.seat true)
    as [H1 _].
  destruct (can_enable_accepts Sample.w SampleRest.sv Sample.car true
              (set_hp Sample.w 0 Sample.seat) true) as [_ H2].
  split.
  - apply H1. split; [reflexivity |]. split; [discriminate |].
    vm_compute. discriminate.
  - apply H2. reflexivity.
Defined.

(** ** Setting hit points and ammo, continued *)

Section RoundingDamage.

Local Open Scope Q_scope.

Variable fl : Q -> Q.
Variable eps : Q.
Hypothesis fl_ok : forall x, Qabs (fl x - x) <= eps * Qabs x.

(** The damage that [set_hp] stores for [h] hit points, neither none nor
    all of the durability [D]. *)
Lemma damage_scaled (D M h : Q) :
  0 < M -> 1 <= h -> h <= D - 1 -> 11 * eps * D < 1 ->
  let d' := fl (M - fl (h * fl (M / D))) in
  0 < d' /\ d' < M.
Proof.
  intros HM Hh HhD Heps d'.
  pose proof (eps_nonneg fl eps fl_ok) as E.
  assert (HD : 1 <= D) by lra.
  assert (He : 11 * eps < 1) by nra.
  set (r := M / D) in *.
  assert (Hr : r * D == M) by (unfold r; field; lra).
  assert (Hr0 : 0 < r) by nra.
  set (a := h / D).
  assert (Ha : a * D == h) by (unfold a; field; lra).
  assert (Ha0 : 0 < a <= 1) by (split; nra).
  assert (HMa : h * r == M * a) by (unfold r, a; field; lra).
  assert (Hlow : r <= M * a) by nra.
  assert (Hhigh : M * a <= M - r) by nra.
  assert (Hre : 11 * eps * M < r) by nra.
  pose proof (fl_bound fl eps fl_ok r r ltac:(split; lra)) as Hk.
  set (k := fl r) in *.
  assert (Hu : M * a - eps * M <= h * k <= M * a + eps * M).
  { assert (h * (eps * r) <= eps * M) by nra. split; nra. }
  pose proof (fl_bound fl eps fl_ok (h * k) (2 * M) ltac:(split; nra)) as Bp.
  set (p := fl (h * k)) in *.
  pose proof (fl_bound fl eps fl_ok (M - p) (2 * M) ltac:(split; nra)) as Bd.
  fold d' in Bd.
  split; nra.
Qed.

End RoundingDamage.

Section SettingMore.

Variable g : world.

(** X26: [set_hp] with a quantity from 0 to the durability leaves a damage
    from 0 to the maximal damage, whatever the damage was and whatever the
    rounding does within its relative error [eps]; the part is then broken
    exactly when the quantity is 0. *)
Theorem set_hp_range (pt : vehicle_part) (qty : Z) (eps : Q) :
  (forall x, Qabs (round_double g x - x) <= eps * Qabs x)%Q ->
  0 < durability (info g pt) ->
  (11 * eps * inject_Z (durability (info g pt)) < 1)%Q ->
  0 < max_damage g (base pt) ->
  0 <= qty <= durability (info g pt) ->
  (0 <= item_damage (base (set_hp g qty pt))
   <= inject_Z (max_damage g (base (set_hp g qty pt))))%Q
  /\ (is_broken g (set_hp g qty pt) = true <-> qty = 0).
Proof.
  intros Hfl Hdur Heps Hmax Hq.
  assert (HM : (0 < inject_Z (max_damage g (base pt)))%Q)
    by (rewrite <- (Zlt_Qlt 0); lia).
  assert (Hmd : forall d, max_damage g (base (set_base (set_damage d (base pt)) pt))
                          = max_damage g (base pt)) by reflexivity.
  unfold set_hp.
  destruct (qty =? durability (info g pt)) eqn:E1.
  - apply Z.eqb_eq in E1. rewrite Hmd. simpl item_damage. split; [split; lra |].
    unfold is_broken. rewrite Hmd. simpl item_damage. split.
    + intros H. apply Qle_bool_iff in H. lra.
    + intros H. lia.
  - apply Z.eqb_neq in E1. destruct (qty =? 0) eqn:E2.
    + apply Z.eqb_eq in E2. rewrite Hmd. simpl item_damage. split; [split; lra |].
      unfold is_broken. rewrite Hmd. simpl item_damage. split; [auto |].
      intros _. apply Qle_bool_iff. apply Qle_refl.
    + apply Z.eqb_neq in E2. rewrite Hmd.
      assert (H1 : (1 <= inject_Z qty)%Q) by (rewrite <- (Zle_Qle 1); lia).
      assert (H2 : (inject_Z qty <= inject_Z (durability (info g pt)) - 1)%Q).
      { unfold Qle, Qminus, Qplus, Qopp, inject_Z. simpl. lia. }
      destruct (damage_scaled (round_double g) eps Hfl _ _ _ HM H1 H2 Heps) as [Hlo Hhi].
      change (item_damage (base (set_base
                (set_damage (dsub g (inject_Z (max_damage g (base pt)))
                               (dmul g (inject_Z qty)
                                  (ddiv g (inject_Z (max_damage g (base pt)))
                                     (inject_Z (durability (info g pt))))))
                   (base pt)) pt)))
        with (round_double g
                (inject_Z (max_damage g (base pt))
                 - round_double g
                     (inject_Z qty
                      * round_double g
                          (inject_Z (max_damage g (base pt))
                           / inject_Z (durability (info g pt)))))).
      split; [split; lra |].
      unfold is_broken. rewrite Hmd.
      change (item_damage (base (set_base
                (set_damage (dsub g (inject_Z (max_damage g (base pt)))
                               (dmul g (inject_Z qty)
                                  (ddiv g (inject_Z (max_damage g (base pt)))
                                     (inject_Z (durability (info g pt))))))
                   (base pt)) pt)))
        with (round_double g
                (inject_Z (max_damage g (base pt))
                 - round_double g
                     (inject_Z qty
                      * round_double g
                          (inject_Z (max_damage g (base pt))
                           / inject_Z (durability (info g pt)))))).
      split; [| intros H; contradiction].
      intros H. apply Qle_bool_iff in H. lra.
Qed.


End SettingMore.

Lemma set_hp_range_witness :
  (0 <= item_damage (base (set_hp Sample.w 3 Sample.worn_seat)) <= inject_Z 4000)%Q
  /\ is_broken Sample.w (set_hp Sample.w 0 Sample.worn_seat) = true.
Proof.
  destruct (set_hp_range Sample.w Sample.worn_seat 3 (1 # 9007199254740992))
    as [H1 _].
  - exact sample_rounding.
  - reflexivity.
  - reflexivity.
  - reflexivity.
  - split; vm_compute; discriminate.
  - destruct (set_hp_range Sample.w Sample.worn_seat 0 (1 # 9007199254740992))
      as [_ H2].
    + exact sample_rounding.
    + reflexivity.
    + reflexivity.
    + reflexivity.
    + split; vm_compute; discriminate.
    + split; [exact H1 | apply H2; reflexivity].
Defined.

